(** * Stateless HTTP transport of mcp-go and the resilient clients of its
    transport guide: a shallow embedding and the properties checked on it.

    Sources embedded:
    - [server/http.go]: [StatelessHTTPServer], its options and constructor,
      [writeJSONRPCError], [processMessage], [ServeHTTP];
    - [www/docs/pages/clients/transports.mdx]: [ResilientSSEClient]
      (reconnect loop, trigger channel, [Close]) and [ManagedStdioClient]
      (monitor loop, [Close]).

    The Go standard library pieces the server calls ([strings.Contains],
    [textproto.CanonicalMIMEHeaderKey], [http.Header], [http.ResponseWriter],
    [http.Error], [log.Logger]) are modelled by small executable definitions;
    the JSON codec and the wrapped MCP server are collaborators the file
    abstracts over (class [Externals]). *)

From Stdlib Require Import ZArith Ascii String List Bool Lia.
From stdpp Require Import base option gmap strings list pretty.
Import ListNotations.

Local Open Scope Z_scope.
Local Open Scope string_scope.
Local Open Scope list_scope.

(* ================================================================== *)
(** ** Go [strings] *)

(** [strings.HasPrefix(s, prefix)]. *)
Fixpoint strings_HasPrefix (s prefix : string) : bool :=
  match prefix, s with
  | EmptyString, _ => true
  | String p prefix', String c s' => Ascii.eqb c p && strings_HasPrefix s' prefix'
  | String _ _, EmptyString => false
  end.

(** [strings.Contains(s, substr)]: [substr] occurs at some offset of [s]. *)
Fixpoint strings_Contains (s substr : string) : bool :=
  strings_HasPrefix s substr ||
  match s with
  | EmptyString => false
  | String _ s' => strings_Contains s' substr
  end.

(* ================================================================== *)
(** ** [net/textproto]: canonical header keys *)

Definition is_lower (c : ascii) : bool :=
  (97 <=? nat_of_ascii c)%nat && (nat_of_ascii c <=? 122)%nat.

Definition is_upper (c : ascii) : bool :=
  (65 <=? nat_of_ascii c)%nat && (nat_of_ascii c <=? 90)%nat.

Definition is_digit (c : ascii) : bool :=
  (48 <=? nat_of_ascii c)%nat && (nat_of_ascii c <=? 57)%nat.

(** [validHeaderFieldByte]: the token characters of RFC 7230. *)
Definition validHeaderFieldByte (c : ascii) : bool :=
  is_lower c || is_upper c || is_digit c ||
  existsb (Ascii.eqb c)
    ["!"; "#"; "$"; "%"; "&"; "'"; "*"; "+"; "-"; "."; "^"; "_"; "`"; "|"; "~"]%char.

Fixpoint all_bytes (p : ascii -> bool) (s : string) : bool :=
  match s with
  | EmptyString => true
  | String c s' => p c && all_bytes p s'
  end.

(** The case-mapping loop of [canonicalMIMEHeaderKey]: upper-case the first
    letter and every letter after a hyphen, lower-case the others. *)
Fixpoint canonical_case (upper : bool) (s : string) : string :=
  match s with
  | EmptyString => EmptyString
  | String c s' =>
      let c' :=
        if upper && is_lower c then ascii_of_nat (nat_of_ascii c - 32)
        else if negb upper && is_upper c then ascii_of_nat (nat_of_ascii c + 32)
        else c in
      String c' (canonical_case (Ascii.eqb c' "-") s')
  end.

(** [textproto.CanonicalMIMEHeaderKey]: a key holding a byte that is not a
    token character (a space included) is returned unchanged. *)
Definition CanonicalMIMEHeaderKey (s : string) : string :=
  if all_bytes validHeaderFieldByte s then canonical_case true s else s.

(* ================================================================== *)
(** ** [net/http]: headers, response writer, [http.Error] *)

(** [http.Header] is [map[string][]string]. *)
Abbreviation http_Header := (gmap string (list string)).

(** [Header.Get]: first value under the canonical key, [""] when absent. *)
Definition Header_Get (h : http_Header) (key : string) : string :=
  match h !! CanonicalMIMEHeaderKey key with
  | Some (v :: _) => v
  | _ => ""
  end.

(** [Header.Set]: replaces the values under the canonical key. *)
Definition Header_Set (h : http_Header) (key value : string) : http_Header :=
  <[CanonicalMIMEHeaderKey key := [value]]> h.

(** [Header.Del]. *)
Definition Header_Del (h : http_Header) (key : string) : http_Header :=
  delete (CanonicalMIMEHeaderKey key) h.

Definition StatusOK : Z := 200.
Definition StatusAccepted : Z := 202.
Definition StatusBadRequest : Z := 400.
Definition StatusNotFound : Z := 404.
Definition StatusMethodNotAllowed : Z := 405.
Definition StatusNotAcceptable : Z := 406.
Definition StatusUnsupportedMediaType : Z := 415.
Definition StatusInternalServerError : Z := 500.

Definition MethodGet : string := "GET".
Definition MethodPost : string := "POST".

(** The state behind an [http.ResponseWriter]: the header map the handler
    edits, the status line once sent (with the headers as they stood at that
    moment, which is what goes on the wire), and the body bytes written. *)
Record ResponseWriter : Type := mkResponseWriter {
  rw_header : http_Header;
  rw_sent : option (Z * http_Header);
  rw_body : string
}.

(** A response nobody has touched yet, as the server hands it to a handler. *)
Definition new_ResponseWriter : ResponseWriter :=
  {| rw_header := ∅; rw_sent := None; rw_body := "" |}.

(** [w.Header().Set(key, value)]. *)
Definition rw_Set (key value : string) (w : ResponseWriter) : ResponseWriter :=
  {| rw_header := Header_Set (rw_header w) key value;
     rw_sent := rw_sent w; rw_body := rw_body w |}.

(** [w.Header().Del(key)]. *)
Definition rw_Del (key : string) (w : ResponseWriter) : ResponseWriter :=
  {| rw_header := Header_Del (rw_header w) key;
     rw_sent := rw_sent w; rw_body := rw_body w |}.

(** [w.WriteHeader(code)]: the first call sends the status line and the
    current headers; a later call is superfluous and changes nothing. *)
Definition WriteHeader (code : Z) (w : ResponseWriter) : ResponseWriter :=
  match rw_sent w with
  | Some _ => w
  | None => {| rw_header := rw_header w;
               rw_sent := Some (code, rw_header w);
               rw_body := rw_body w |}
  end.

(** [w.Write(data)]: sends an implicit 200 first when no status was sent. *)
Definition Write (data : string) (w : ResponseWriter) : ResponseWriter :=
  let w1 := WriteHeader StatusOK w in
  {| rw_header := rw_header w1; rw_sent := rw_sent w1;
     rw_body := rw_body w1 +:+ data |}.

(** What the client receives. *)
Definition response_status (w : ResponseWriter) : Z :=
  match rw_sent w with
  | Some (code, _) => code
  | None => StatusOK
  end.

Definition response_header (w : ResponseWriter) (key : string) : string :=
  match rw_sent w with
  | Some (_, h) => Header_Get h key
  | None => Header_Get (rw_header w) key
  end.

Definition response_body (w : ResponseWriter) : string := rw_body w.

Definition newline : string := String (ascii_of_nat 10) EmptyString.

(** [http.Error(w, error, code)]. *)
Definition http_Error (w : ResponseWriter) (error : string) (code : Z)
  : ResponseWriter :=
  let w := rw_Del "Content-Length" w in
  let w := rw_Set "Content-Type" "text/plain; charset=utf-8" w in
  let w := rw_Set "X-Content-Type-Options" "nosniff" w in
  let w := WriteHeader code w in
  Write (error +:+ newline) w.

(* ================================================================== *)
(** ** Go [log] *)

(** The [io.Writer]s a logger of this program can be built on. *)
Inductive io_Writer : Type :=
  | os_Stderr
  | os_Stdout
  | io_Discard.

(** [*log.Logger] as [log.New(out, prefix, flag)] builds it. *)
Record Logger : Type := mkLogger {
  log_out : io_Writer;
  log_prefix : string;
  log_flag : Z
}.

Definition log_New (out : io_Writer) (prefix : string) (flag : Z) : Logger :=
  {| log_out := out; log_prefix := prefix; log_flag := flag |}.

Definition Ldate : Z := 1.
Definition Ltime : Z := 2.
Definition LstdFlags : Z := Z.lor Ldate Ltime.

(** The process's standard streams, as the text written to each so far. *)
Record Console : Type := mkConsole {
  stdout : string;
  stderr : string
}.

Definition Writer_Write (out : io_Writer) (data : string) (c : Console) : Console :=
  match out with
  | os_Stderr => {| stdout := stdout c; stderr := stderr c +:+ data |}
  | os_Stdout => {| stdout := stdout c +:+ data; stderr := stderr c |}
  | io_Discard => c
  end.

Fixpoint ends_with_newline (s : string) : bool :=
  match s with
  | EmptyString => false
  | String c EmptyString => Ascii.eqb c (ascii_of_nat 10)
  | String _ s' => ends_with_newline s'
  end.

(* ================================================================== *)
(** ** JSON-RPC envelopes (package [mcp]) *)

(** Modelled from the spec: the request id of package [mcp], which is not
    among the sources; "a unique ID (string or integer, caller-chosen)", with
    Go's [nil] for the absent id. *)
Inductive RequestId : Type :=
  | IdNil
  | IdString (s : string)
  | IdInt (n : Z).

(** Modelled from the spec: the error object [{code, message, data?}]. *)
Record ErrorObject (Payload : Type) : Type := mkErrorObject {
  err_code : Z;
  err_message : string;
  err_data : option Payload
}.
Arguments mkErrorObject {Payload}.
Arguments err_code {Payload}.
Arguments err_message {Payload}.
Arguments err_data {Payload}.

(** Modelled from the spec: the messages a server answers with, Response
    [{id, result}] or [{id, error:{code,message,data?}}], each a JSON-RPC 2.0
    envelope. *)
Inductive JSONRPCMessage (Payload : Type) : Type :=
  | JSONRPCResponse (jsonrpc : string) (id : RequestId) (result : Payload)
  | JSONRPCError (jsonrpc : string) (id : RequestId) (error : ErrorObject Payload).
Arguments JSONRPCResponse {Payload}.
Arguments JSONRPCError {Payload}.

Definition JSONRPC_VERSION : string := "2.0".

(** Modelled from the spec: the "standard PARSE_ERROR code" of JSON-RPC 2.0;
    the constant [mcp.PARSE_ERROR] is not among the sources. *)
Definition PARSE_ERROR : Z := -32700.

(** Modelled from the spec: [createErrorResponse(id, code, message)], a helper
    of package [server] that is not among the sources; it builds the Response
    envelope [{id, error:{code,message}}]. *)
Definition createErrorResponse {Payload : Type}
    (id : RequestId) (code : Z) (message : string) : JSONRPCMessage Payload :=
  JSONRPCError JSONRPC_VERSION id
    {| err_code := code; err_message := message; err_data := None |}.

(** A Go [(value, error)] result. *)
Inductive result (A : Type) : Type :=
  | ok (a : A)
  | err (e : string).
Arguments ok {A}.
Arguments err {A}.

(* ================================================================== *)
(** ** Collaborators outside the repository's sources *)

(** The wrapped MCP server and the JSON codec:
    - [MCPServer]: the values of [*MCPServer];
    - [Ctx]: the values of [context.Context];
    - [Payload]: the result and error-data values ([interface{}]);
    - [json_Decode body]: [json.NewDecoder(body).Decode(&rawMessage)], the raw
      message read, or [None] when [Decode] returns an error;
    - [json_Encode v]: [json.NewEncoder(w).Encode(v)], the bytes it hands to
      [w.Write], or the error it returns (nothing is written then);
    - [HandleMessage server ctx raw]: the server's answer, [None] for Go's
      [nil] (the message was a notification);
    - [log_stamp flag]: the date and time header [log] prints under [flag] at
      the moment of the call. *)
Class Externals : Type := {
  MCPServer : Type;
  Ctx : Type;
  Payload : Type;
  json_Decode : string -> option string;
  json_Encode : JSONRPCMessage Payload -> result string;
  HandleMessage : MCPServer -> Ctx -> string -> option (JSONRPCMessage Payload);
  log_stamp : Z -> string
}.

(* ================================================================== *)
(** ** Package [server]: the stateless HTTP server *)

Section StatelessHTTP.
Context `{Externals}.

(** [Logger.Printf]: prefix, header, message, and a newline when the message
    does not end with one, in one write to the logger's output. *)
Definition Logger_Printf (l : Logger) (msg : string) (c : Console) : Console :=
  let line := log_prefix l +:+ log_stamp (log_flag l) +:+ msg in
  Writer_Write (log_out l)
    (if ends_with_newline line then line else line +:+ newline) c.

(** [*http.Request], the parts [ServeHTTP] reads. *)
Record Request : Type := mkRequest {
  Method : string;
  URL_Path : string;
  Header : http_Header;
  Body : string;
  Context_ : Ctx
}.

Definition StatelessHTTPContextFunc : Type := Ctx -> Ctx.

(** [StatelessHTTPServer]; [srv] holds the listen address once [Start] has
    built the [http.Server], and the mutex [mu] carries no data. *)
Record StatelessHTTPServer : Type := mkStatelessHTTPServer {
  server : MCPServer;
  basePath : string;
  errLogger : Logger;
  contextFunc : option StatelessHTTPContextFunc;
  srv : option string
}.

(** An option mutates the server it is handed. *)
Definition StatelessHTTPOption : Type := StatelessHTTPServer -> StatelessHTTPServer.

Definition WithStatelessHTTPContextFunc (fn : StatelessHTTPContextFunc)
  : StatelessHTTPOption :=
  fun s => {| server := server s; basePath := basePath s;
              errLogger := errLogger s; contextFunc := Some fn; srv := srv s |}.

Definition WithHTTPBasePath (basePath' : string) : StatelessHTTPOption :=
  fun s => {| server := server s; basePath := basePath';
              errLogger := errLogger s; contextFunc := contextFunc s;
              srv := srv s |}.

(** [for _, opt := range opts { opt(svr) }]. *)
Fixpoint apply_options (opts : list StatelessHTTPOption) (svr : StatelessHTTPServer)
  : StatelessHTTPServer :=
  match opts with
  | [] => svr
  | opt :: rest => apply_options rest (opt svr)
  end.

Definition NewStatelessHTTPServer (server0 : MCPServer)
    (opts : list StatelessHTTPOption) : StatelessHTTPServer :=
  let svr := {| server := server0;
                basePath := "/";
                errLogger := log_New os_Stderr "" LstdFlags;
                contextFunc := None;
                srv := None |} in
  apply_options opts svr.

Definition SetErrorLogger (logger : Logger) (s : StatelessHTTPServer)
  : StatelessHTTPServer :=
  {| server := server s; basePath := basePath s; errLogger := logger;
     contextFunc := contextFunc s; srv := srv s |}.

Definition SetContextFunc (fn : StatelessHTTPContextFunc) (s : StatelessHTTPServer)
  : StatelessHTTPServer :=
  {| server := server s; basePath := basePath s; errLogger := errLogger s;
     contextFunc := Some fn; srv := srv s |}.

(** [json.NewEncoder(w).Encode(v)]: the bytes go to [w] when encoding
    succeeds; the call's error is returned beside the writer. The response
    writer of this file takes every write, so the error is the encoder's: a
    write that fails (the connection is gone, the status line sent allows no
    body) is not in the model. *)
Definition Encode (v : JSONRPCMessage Payload) (w : ResponseWriter)
  : ResponseWriter * option string :=
  match json_Encode v with
  | ok bytes => (Write bytes w, None)
  | err e => (w, Some e)
  end.

Definition writeJSONRPCError (s : StatelessHTTPServer) (w : ResponseWriter)
    (id : RequestId) (code : Z) (message : string) : ResponseWriter :=
  let response := createErrorResponse id code message in
  let w := rw_Set "Content-Type" "application/json" w in
  let w := WriteHeader StatusBadRequest w in
  fst (Encode response w).

(** [processMessage(w, r)]: the response writer and the console (the error
    logger's output) after the call. *)
Definition processMessage (s : StatelessHTTPServer) (w : ResponseWriter)
    (r : Request) (c : Console) : ResponseWriter * Console :=
  let acceptHeader := Header_Get (Header r) "Accept" in
  if negb (strings_Contains acceptHeader "application/json")
     && negb (strings_Contains acceptHeader "text/event-stream")
  then
    (http_Error w
       "Not Acceptable: Client must accept both application/json and text/event-stream"
       StatusNotAcceptable, c)
  else
  let contentType := Header_Get (Header r) "Content-Type" in
  if negb (String.eqb contentType "application/json") then
    (http_Error w
       "Unsupported Media Type: Content-Type must be application/json"
       StatusUnsupportedMediaType, c)
  else
  if String.eqb (Method r) MethodGet then
    (http_Error w "Method Not Allowed" StatusMethodNotAllowed, c)
  else
  if negb (String.eqb (Method r) MethodPost) then
    (http_Error w "Method Not Allowed" StatusMethodNotAllowed, c)
  else
  match json_Decode (Body r) with
  | None => (writeJSONRPCError s w IdNil PARSE_ERROR "Parse error", c)
  | Some rawMessage =>
      match HandleMessage (server s) (Context_ r) rawMessage with
      | Some response =>
          let w := rw_Set "content-type" "application/json" w in
          let w := WriteHeader StatusOK w in
          match Encode response w with
          | (w, Some e) =>
              let c := Logger_Printf (errLogger s)
                         ("Error writing response: " +:+ e) c in
              (http_Error w "Internal Server Error" StatusInternalServerError, c)
          | (w, None) => (w, c)
          end
      | None => (WriteHeader StatusAccepted w, c)
      end
  end.

(** [http.NotFound(w, r)]. *)
Definition http_NotFound (w : ResponseWriter) (r : Request) : ResponseWriter :=
  http_Error w "404 page not found" StatusNotFound.

Definition ServeHTTP (s : StatelessHTTPServer) (w : ResponseWriter)
    (r : Request) (c : Console) : ResponseWriter * Console :=
  let path := URL_Path r in
  if String.eqb path (basePath s) then processMessage s w r c
  else (http_NotFound w r, c).

(** The response a client gets for request [r]: [ServeHTTP] run on a fresh
    response writer. *)
Definition serve (s : StatelessHTTPServer) (r : Request) : ResponseWriter :=
  fst (ServeHTTP s new_ResponseWriter r (mkConsole "" "")).

(** The Accept check as the code makes it: it lets a request through when the
    header names at least one of the two media types. *)
Definition accept_passes (r : Request) : bool :=
  strings_Contains (Header_Get (Header r) "Accept") "application/json"
  || strings_Contains (Header_Get (Header r) "Accept") "text/event-stream".

(** The Accept header advertises both media types. *)
Definition accepts_both (r : Request) : bool :=
  strings_Contains (Header_Get (Header r) "Accept") "application/json"
  && strings_Contains (Header_Get (Header r) "Accept") "text/event-stream".

(** The request [r] carrying another body. *)
Definition with_body (r : Request) (body : string) : Request :=
  {| Method := Method r; URL_Path := URL_Path r; Header := Header r;
     Body := body; Context_ := Context_ r |}.

(** An option that leaves the wrapped server, or the base path, as it was. *)
Definition keeps_server (opt : StatelessHTTPOption) : Prop :=
  forall s, server (opt s) = server s.

Definition keeps_basePath (opt : StatelessHTTPOption) : Prop :=
  forall s, basePath (opt s) = basePath s.

End StatelessHTTP.

(* ================================================================== *)
(** ** The resilient clients of the transport guide *)

(** A buffered channel of [struct{}] values: only the number of buffered
    values matters. *)
Record chan : Type := mkChan {
  chan_cap : nat;
  chan_len : nat
}.

(** [make(chan struct{}, n)]. *)
Definition make_chan (n : nat) : chan := {| chan_cap := n; chan_len := 0 |}.

(** [select { case ch <- struct{}{}: default: }]: the value is buffered when
    there is room and dropped otherwise; the sender never blocks. *)
Definition try_send (ch : chan) : chan :=
  if (chan_len ch <? chan_cap ch)%nat
  then {| chan_cap := chan_cap ch; chan_len := S (chan_len ch) |}
  else ch.

(** [<-ch], ready only when a value is buffered. *)
Definition recv (ch : chan) : option chan :=
  match chan_len ch with
  | O => None
  | S n => Some {| chan_cap := chan_cap ch; chan_len := n |}
  end.

(** Where a call of [Close] stands. *)
Inductive close_pc : Type :=
  | CloseNotCalled
  | CloseCancelled   (* [cancel()] done, [Close] has not returned yet *)
  | CloseReturned.

(** [time.Duration] is an [int64] count of nanoseconds. *)
Definition wrap_int64 (z : Z) : Z := (z + 2 ^ 63) mod 2 ^ 64 - 2 ^ 63.

Definition Second : Z := 1000000000.

(** [ResilientSSEClient]: the goroutine running [reconnectLoop], the callers
    of [CallTool] and the caller of [Close], interleaved. One event is one
    atomic step of one of them; the event says which branch a [select] or a
    call took. [connect()] runs under the client's mutex and is one step. *)
Module ResilientSSEClient.

(** Where the goroutine started by [go rsc.reconnectLoop()] stands. *)
Inductive loop_pc : Type :=
  | AtSelect                   (* blocked in the outer [select] *)
  | AtConnect (attempt : nat)  (* about to call [rsc.connect()] *)
  | AtBackoff (attempt : nat)  (* blocked in the inner [select] *)
  | LoopReturned.

(** [waited] lists the backoff delays the loop has sat out in full, oldest
    first; [started] and [finished] count the recovery rounds (one per value
    received from [reconnectCh]) begun and ended. *)
Record state : Type := mkState {
  reconnectCh : chan;
  ctx_done : bool;
  client_set : bool;
  loop : loop_pc;
  closing : close_pc;
  waited : list Z;
  started : nat;
  finished : nat
}.

(** [NewResilientSSEClient(baseURL)]: the channel has room for one value and
    one goroutine runs the loop. *)
Definition NewResilientSSEClient : state :=
  {| reconnectCh := make_chan 1;
     ctx_done := false;
     client_set := false;
     loop := AtSelect;
     closing := CloseNotCalled;
     waited := [];
     started := 0;
     finished := 0 |}.

Inductive event : Type :=
  | SignalFailure     (* a [CallTool] whose transport has lost its connection *)
  | LoopReceive       (* outer [select] takes [<-rsc.reconnectCh] *)
  | LoopCtxDone       (* a [select] takes [<-rsc.ctx.Done()]: the loop returns *)
  | ConnectFails      (* [rsc.connect()] returned an error *)
  | ConnectSucceeds   (* [rsc.connect()] returned nil: [break] *)
  | TimerFires        (* inner [select] takes [<-time.After(backoff)] *)
  | CloseCancel       (* [Close]: [rsc.cancel()] *)
  | CloseReturn.      (* [Close]: lock, close the client, unlock, return *)

(** [backoff := time.Duration(attempt) * time.Second]. *)
Definition backoff (attempt : nat) : Z := wrap_int64 (Z.of_nat attempt * Second).

Definition set_loop (s : state) (pc : loop_pc) (w : list Z) (st fi : nat) : state :=
  {| reconnectCh := reconnectCh s; ctx_done := ctx_done s;
     client_set := client_set s; loop := pc; closing := closing s;
     waited := w; started := st; finished := fi |}.

(** One step; [None] when the event cannot happen in state [s]. [CallTool]
    with no client installed returns "client not connected" and sends
    nothing; with one, a connection error makes it run its non-blocking
    send. *)
Definition step (s : state) (e : event) : option state :=
  match e with
  | SignalFailure =>
      if client_set s then
        Some {| reconnectCh := try_send (reconnectCh s); ctx_done := ctx_done s;
                client_set := client_set s; loop := loop s; closing := closing s;
                waited := waited s; started := started s; finished := finished s |}
      else Some s
  | LoopReceive =>
      match loop s, recv (reconnectCh s) with
      | AtSelect, Some ch =>
          Some {| reconnectCh := ch; ctx_done := ctx_done s;
                  client_set := client_set s; loop := AtConnect 1;
                  closing := closing s; waited := waited s;
                  started := S (started s); finished := finished s |}
      | _, _ => None
      end
  | LoopCtxDone =>
      if ctx_done s then
        match loop s with
        | AtSelect => Some (set_loop s LoopReturned (waited s) (started s) (finished s))
        | AtBackoff _ =>
            Some (set_loop s LoopReturned (waited s) (started s) (S (finished s)))
        | _ => None
        end
      else None
  | ConnectFails =>
      match loop s with
      | AtConnect attempt =>
          Some (set_loop s (AtBackoff attempt) (waited s) (started s) (finished s))
      | _ => None
      end
  | ConnectSucceeds =>
      match loop s with
      | AtConnect _ =>
          Some {| reconnectCh := reconnectCh s; ctx_done := ctx_done s;
                  client_set := true; loop := AtSelect; closing := closing s;
                  waited := waited s; started := started s;
                  finished := S (finished s) |}
      | _ => None
      end
  | TimerFires =>
      match loop s with
      | AtBackoff attempt =>
          let w := waited s ++ [backoff attempt] in
          if (S attempt <=? 5)%nat
          then Some (set_loop s (AtConnect (S attempt)) w (started s) (finished s))
          else Some (set_loop s AtSelect w (started s) (S (finished s)))
      | _ => None
      end
  | CloseCancel =>
      match closing s with
      | CloseNotCalled =>
          Some {| reconnectCh := reconnectCh s; ctx_done := true;
                  client_set := client_set s; loop := loop s;
                  closing := CloseCancelled; waited := waited s;
                  started := started s; finished := finished s |}
      | _ => None
      end
  | CloseReturn =>
      match closing s with
      | CloseCancelled =>
          Some {| reconnectCh := reconnectCh s; ctx_done := ctx_done s;
                  client_set := client_set s; loop := loop s;
                  closing := CloseReturned; waited := waited s;
                  started := started s; finished := finished s |}
      | _ => None
      end
  end.

Fixpoint run (s : state) (evs : list event) : option state :=
  match evs with
  | [] => Some s
  | e :: evs' =>
      match step s e with
      | Some s' => run s' evs'
      | None => None
      end
  end.

(** Recovery rounds begun and not ended. *)
Definition in_progress (s : state) : nat := started s - finished s.

(** [n] reconnection attempts in a row that fail, each followed by its full
    backoff wait. *)
Definition failed_attempts (n : nat) : list event :=
  concat (repeat [ConnectFails; TimerFires] n).

(** The guide never shows the first connection being made ([connect] is
    called by the loop only, and the loop waits for a trigger that only a
    [CallTool] on an installed client sends). [connected] is the client once
    one has been made: [rsc.client] is set, all else is as the constructor
    left it. *)
Definition connected : state :=
  {| reconnectCh := make_chan 1; ctx_done := false; client_set := true;
     loop := AtSelect; closing := CloseNotCalled; waited := [];
     started := 0; finished := 0 |}.

(** Six reconnection attempts that fail in a row: a trigger, the five
    attempts of its round, another trigger and the first attempt of the next
    round. No attempt in between succeeds. *)
Definition six_failures : list event :=
  [SignalFailure; LoopReceive] ++ failed_attempts 5
  ++ [SignalFailure; LoopReceive] ++ failed_attempts 1.

(** [connected] after [SignalFailure; LoopReceive]: the loop has taken the
    trigger and is about to make attempt 1. *)
Definition round_started : state :=
  {| reconnectCh := make_chan 1; ctx_done := false; client_set := true;
     loop := AtConnect 1; closing := CloseNotCalled; waited := [];
     started := 1; finished := 0 |}.

(** [connected] after one or more failure signals nobody has picked up. *)
Definition trigger_pending : state :=
  {| reconnectCh := {| chan_cap := 1; chan_len := 1 |}; ctx_done := false;
     client_set := true; loop := AtSelect; closing := CloseNotCalled;
     waited := []; started := 0; finished := 0 |}.

Definition in_recovery (pc : loop_pc) : bool :=
  match pc with
  | AtConnect _ | AtBackoff _ => true
  | AtSelect | LoopReturned => false
  end.

(** What every step keeps true. *)
Definition invariant (s : state) : Prop :=
  chan_cap (reconnectCh s) = 1%nat /\
  (chan_len (reconnectCh s) <= 1)%nat /\
  started s = (finished s + (if in_recovery (loop s) then 1 else 0))%nat.

End ResilientSSEClient.

(** [ManagedStdioClient]: the goroutine running [monitorProcess], the callers
    of [CallTool] and the caller of [Close], interleaved in the same way. *)
Module ManagedStdioClient.

Inductive monitor_pc : Type :=
  | AtSelect          (* blocked in the [select] of the loop *)
  | AtRestart         (* closed the old client, slept 1 s, calls [start()] *)
  | AtRetryDelay      (* [start()] failed: sleeps 5 s before re-arming *)
  | MonitorReturned.

Record state : Type := mkState {
  restartChan : chan;
  ctx_done : bool;
  wg : nat;
  monitor : monitor_pc;
  closing : close_pc
}.

(** [NewManagedStdioClient(options)] when [start()] succeeds: [wg.Add(1)],
    then [go msc.monitorProcess()]. *)
Definition NewManagedStdioClient : state :=
  {| restartChan := make_chan 1;
     ctx_done := false;
     wg := 1;
     monitor := AtSelect;
     closing := CloseNotCalled |}.

Inductive event : Type :=
  | SignalFailure     (* [CallTool] met a process error and runs its send *)
  | MonitorReceive    (* [select] takes [<-msc.restartChan] *)
  | MonitorCtxDone    (* [select] takes [<-msc.ctx.Done()]: return, [wg.Done()] *)
  | StartFails
  | StartSucceeds
  | RetryRearm        (* after the 5 s sleep: the non-blocking send *)
  | CloseCancel       (* [Close]: [msc.cancel()] *)
  | CloseReturn.      (* [Close]: [msc.wg.Wait()] is over, close and return *)

Definition set_monitor (s : state) (pc : monitor_pc) (ch : chan) (n : nat) : state :=
  {| restartChan := ch; ctx_done := ctx_done s; wg := n; monitor := pc;
     closing := closing s |}.

Definition step (s : state) (e : event) : option state :=
  match e with
  | SignalFailure =>
      Some (set_monitor s (monitor s) (try_send (restartChan s)) (wg s))
  | MonitorReceive =>
      match monitor s, recv (restartChan s) with
      | AtSelect, Some ch => Some (set_monitor s AtRestart ch (wg s))
      | _, _ => None
      end
  | MonitorCtxDone =>
      match monitor s, ctx_done s with
      | AtSelect, true =>
          Some (set_monitor s MonitorReturned (restartChan s) (wg s - 1))
      | _, _ => None
      end
  | StartFails =>
      match monitor s with
      | AtRestart => Some (set_monitor s AtRetryDelay (restartChan s) (wg s))
      | _ => None
      end
  | StartSucceeds =>
      match monitor s with
      | AtRestart => Some (set_monitor s AtSelect (restartChan s) (wg s))
      | _ => None
      end
  | RetryRearm =>
      match monitor s with
      | AtRetryDelay =>
          Some (set_monitor s AtSelect (try_send (restartChan s)) (wg s))
      | _ => None
      end
  | CloseCancel =>
      match closing s with
      | CloseNotCalled =>
          Some {| restartChan := restartChan s; ctx_done := true; wg := wg s;
                  monitor := monitor s; closing := CloseCancelled |}
      | _ => None
      end
  | CloseReturn =>
      match closing s, wg s with
      | CloseCancelled, O =>
          Some {| restartChan := restartChan s; ctx_done := ctx_done s;
                  wg := wg s; monitor := monitor s; closing := CloseReturned |}
      | _, _ => None
      end
  end.

Fixpoint run (s : state) (evs : list event) : option state :=
  match evs with
  | [] => Some s
  | e :: evs' =>
      match step s e with
      | Some s' => run s' evs'
      | None => None
      end
  end.

Definition has_returned (pc : monitor_pc) : bool :=
  match pc with
  | MonitorReturned => true
  | _ => false
  end.

(** What every step keeps true: the wait group counts the monitor goroutine
    for as long as it has not returned, and [Close] returns only at zero. *)
Definition invariant (s : state) : Prop :=
  chan_cap (restartChan s) = 1%nat /\
  (chan_len (restartChan s) <= 1)%nat /\
  wg s = (if has_returned (monitor s) then 0 else 1)%nat /\
  (closing s = CloseReturned -> wg s = 0%nat).

End ManagedStdioClient.

(* ================================================================== *)
(** ** A test double for the collaborators *)

Definition dquote : string := String (ascii_of_nat 34) EmptyString.

Definition quoted (s : string) : string := dquote +:+ s +:+ dquote.

(** Bodies the double's decoder accepts. *)
Definition ping_request : string :=
  "{" +:+ quoted "jsonrpc" +:+ ":" +:+ quoted "2.0" +:+ "," +:+ quoted "id" +:+ ":1,"
      +:+ quoted "method" +:+ ":" +:+ quoted "ping" +:+ "}".

Definition initialized_notification : string :=
  "{" +:+ quoted "jsonrpc" +:+ ":" +:+ quoted "2.0" +:+ ","
      +:+ quoted "method" +:+ ":" +:+ quoted "notifications/initialized" +:+ "}".

Definition demo_Decode (body : string) : option string :=
  if String.eqb body ping_request || String.eqb body initialized_notification
  then Some body else None.

Definition demo_render_id (id : RequestId) : string :=
  match id with
  | IdNil => "null"
  | IdString s => quoted s
  | IdInt n => pretty n
  end.

(** Renders an envelope as JSON text followed by a newline; a result that is
    not a JSON value (here: the text [NaN]) makes it fail. *)
Definition demo_Encode (v : JSONRPCMessage string) : result string :=
  match v with
  | JSONRPCResponse ver id res =>
      if String.eqb res "NaN" then err "json: unsupported value: NaN"
      else ok ("{" +:+ quoted "jsonrpc" +:+ ":" +:+ quoted ver +:+ ","
                   +:+ quoted "id" +:+ ":" +:+ demo_render_id id +:+ ","
                   +:+ quoted "result" +:+ ":" +:+ res +:+ "}" +:+ newline)
  | JSONRPCError ver id e =>
      ok ("{" +:+ quoted "jsonrpc" +:+ ":" +:+ quoted ver +:+ ","
              +:+ quoted "id" +:+ ":" +:+ demo_render_id id +:+ ","
              +:+ quoted "error" +:+ ":{" +:+ quoted "code" +:+ ":"
              +:+ pretty (err_code e) +:+ "," +:+ quoted "message" +:+ ":"
              +:+ quoted (err_message e) +:+ "}}" +:+ newline)
  end.

(** The double's server: server [0] answers a ping with an empty result,
    any other server answers it with a result that cannot be encoded;
    notifications get no answer. *)
Definition demo_HandleMessage (server : nat) (_ : unit) (raw : string)
  : option (JSONRPCMessage string) :=
  if String.eqb raw ping_request then
    Some (JSONRPCResponse JSONRPC_VERSION (IdInt 1)
            (match server with O => "{}" | S _ => "NaN" end))
  else None.

Definition demo : Externals :=
  {| MCPServer := nat;
     Ctx := unit;
     Payload := string;
     json_Decode := demo_Decode;
     json_Encode := demo_Encode;
     HandleMessage := demo_HandleMessage;
     log_stamp := fun _ => "2025/01/01 00:00:00 " |}.

(** An Accept header that advertises both media types. *)
Definition both_types : string := "application/json, text/event-stream".

Definition demo_server : @StatelessHTTPServer demo :=
  @NewStatelessHTTPServer demo 0%nat [].

Definition demo_request (method : string) (headers : list (string * string))
    (body : string) : @Request demo :=
  @mkRequest demo method "/"
    (fold_left (fun h kv => Header_Set h (fst kv) (snd kv)) headers ∅) body tt.

(* ================================================================== *)
(** ** Transport selection (the guide's decision matrix) *)

Record TransportRequirements : Type := mkTransportRequirements {
  RealTime : bool;
  MultiClient : bool;
  NetworkRequired : bool;
  Performance : string;
  Complexity : string
}.

(** [SelectTransport(req)]: the first [case] of the [switch] that holds. *)
Definition SelectTransport (req : TransportRequirements) : string :=
  if negb (NetworkRequired req) && String.eqb (Performance req) "high" then
    "inprocess"
  else if negb (NetworkRequired req) && negb (MultiClient req) then
    "stdio"
  else if RealTime req && MultiClient req then
    "sse"
  else if NetworkRequired req && MultiClient req then
    "streamablehttp"
  else
    "stdio".

(* ================================================================== *)
(** ** The connection pool of the guide *)

(** What the Go runtime allows: [max_chan_cap] is the largest capacity
    [make(chan *client.Client, n)] accepts; beyond it, as for a negative
    one, [make] panics ("makechan: size out of range"). The capacity is an
    [int], so the limit is one too. *)
Class Platform : Type := {
  max_chan_cap : Z;
  max_chan_cap_int : (max_chan_cap <= 2 ^ 63 - 1)%Z
}.

(** [StreamableHTTPClientPool]. A client is named by its rank among the
    clients the factory has made; [clients] is the content of the buffered
    channel, oldest first; [closed] lists the clients [Put] has closed. *)
Module StreamableHTTPClientPool.

Record pool : Type := mkPool {
  clients : list nat;
  maxSize : nat;
  made : nat;
  closed : list nat
}.

(** [pool.factory()]: a client nobody has seen before. *)
Definition factory (p : pool) : nat * pool :=
  (made p,
   {| clients := clients p; maxSize := maxSize p; made := S (made p);
      closed := closed p |}).

(** [pool.clients <- c]: a blocking send, [None] when the buffer is full (the
    sender would wait). *)
Definition send (c : nat) (p : pool) : option pool :=
  if (length (clients p) <? maxSize p)%nat
  then Some {| clients := clients p ++ [c]; maxSize := maxSize p;
               made := made p; closed := closed p |}
  else None.

(** [for i := 0; i < maxSize; i++ { pool.clients <- pool.factory() }], with
    [n] rounds to go. *)
Fixpoint populate (n : nat) (p : pool) : option pool :=
  match n with
  | O => Some p
  | S n' =>
      let (c, p1) := factory p in
      match send c p1 with
      | Some p2 => populate n' p2
      | None => None
      end
  end.

(** [NewStreamableHTTPClientPool(baseURL, maxSize)]; [None] when the call
    does not return: [make] panics on a negative size and on one beyond what
    the platform allocates. *)
Definition NewStreamableHTTPClientPool `{Platform} (maxSize0 : Z) : option pool :=
  if (maxSize0 <? 0)%Z || (max_chan_cap <? maxSize0)%Z then None
  else populate (Z.to_nat maxSize0)
         {| clients := []; maxSize := Z.to_nat maxSize0; made := 0; closed := [] |}.

(** [pool.Get()]: the oldest pooled client, or a new one when the pool is
    empty; the caller never waits. *)
Definition Get (p : pool) : nat * pool :=
  match clients p with
  | c :: rest =>
      (c, {| clients := rest; maxSize := maxSize p; made := made p;
             closed := closed p |})
  | [] => factory p
  end.

(** [pool.Put(c)]: back into the pool when there is room, closed otherwise. *)
Definition Put (c : nat) (p : pool) : pool :=
  if (length (clients p) <? maxSize p)%nat
  then {| clients := clients p ++ [c]; maxSize := maxSize p; made := made p;
          closed := closed p |}
  else {| clients := clients p; maxSize := maxSize p; made := made p;
          closed := c :: closed p |}.

(** [pool.CallTool(ctx, req)] run on its own: [Get], the client's call, the
    deferred [Put]. The client that served the call comes back with the
    pool. *)
Definition CallTool (p : pool) : nat * pool :=
  let (c, p1) := Get p in (c, Put c p1).

(** Calls of [CallTool] running side by side: [Acquire] is the [Get] of one
    of them, [Release c] the deferred [Put(c)] of the call that holds [c]. *)
Inductive event : Type :=
  | Acquire
  | Release (c : nat).

Record state : Type := mkState {
  the_pool : pool;
  held : list nat
}.

Definition step (s : state) (e : event) : option state :=
  match e with
  | Acquire =>
      let (c, p) := Get (the_pool s) in
      Some {| the_pool := p; held := c :: held s |}
  | Release c =>
      if bool_decide (c ∈ held s)
      then Some {| the_pool := Put c (the_pool s);
                   held := filter (fun x => x <> c) (held s) |}
      else None
  end.

Fixpoint run (s : state) (evs : list event) : option state :=
  match evs with
  | [] => Some s
  | e :: evs' =>
      match step s e with
      | Some s' => run s' evs'
      | None => None
      end
  end.

(** Every client made so far: pooled, held by a call, or closed. *)
Definition everyone (s : state) : list nat :=
  clients (the_pool s) ++ held s ++ closed (the_pool s).

Definition invariant (s : state) : Prop :=
  (length (clients (the_pool s)) <= maxSize (the_pool s))%nat /\
  NoDup (everyone s) /\
  (forall c, c ∈ everyone s <-> (c < made (the_pool s))%nat).

End StreamableHTTPClientPool.

(* ================================================================== *)
(** ** The notification handlers of the guide *)

(** [SSEEventHandler]: the handler table, the dispatch loop started by
    [Start] and the caller of [Stop]. [Handler] stands for the values of
    [func(mcp.Notification)]. *)
Module SSEEventHandler.

Record Notification : Type := mkNotification {
  Method : string;
  Params : string
}.

Section Handlers.
Variable Handler : Type.

(** [seh.handlers[method] = append(seh.handlers[method], handler)]. *)
Definition addHandler (method : string) (handler : Handler)
    (handlers : gmap string (list Handler)) : gmap string (list Handler) :=
  <[method := default [] (handlers !! method) ++ [handler]]> handlers.

Definition OnProgress := addHandler "notifications/progress".
Definition OnMessage := addHandler "notifications/message".
Definition OnResourceUpdate := addHandler "notifications/resources/updated".
Definition OnToolUpdate := addHandler "notifications/tools/updated".

(** [handleNotification(notification)]: the goroutines it starts, one per
    handler of the notification's method, in the order of the slice. *)
Definition handleNotification (handlers : gmap string (list Handler))
    (notification : Notification) : list (Handler * Notification) :=
  map (fun handler => (handler, notification))
      (default [] (handlers !! Method notification)).

(** The handlers registered by a list of [addHandler] calls, first call
    first. *)
Definition register (calls : list (string * Handler))
    (handlers : gmap string (list Handler)) : gmap string (list Handler) :=
  fold_left (fun hs call => addHandler (fst call) (snd call) hs) calls handlers.

(** [loops] counts the dispatch goroutines that have not returned;
    [spawned] lists the handler goroutines started so far. *)
Record state : Type := mkState {
  handlers_of : gmap string (list Handler);
  ctx_done : bool;
  wg : nat;
  loops : nat;
  stopping : close_pc;
  spawned : list (Handler * Notification)
}.

(** [NewSSEEventHandler(c)]. *)
Definition NewSSEEventHandler : state :=
  {| handlers_of := ∅; ctx_done := false; wg := 0; loops := 0;
     stopping := CloseNotCalled; spawned := [] |}.

Inductive event : Type :=
  | AddHandler (method : string) (handler : Handler)
  | StartSubscribes   (* [Start]: [Subscribe] worked, [wg.Add(1)], [go] *)
  | StartFails        (* [Start]: [Subscribe] returned an error *)
  | Deliver (notification : Notification)  (* a loop takes [<-notifications] *)
  | LoopCtxDone       (* a loop takes [<-seh.ctx.Done()], [wg.Done()] *)
  | StopCancel        (* [Stop]: [seh.cancel()] *)
  | StopReturn.       (* [Stop]: [seh.wg.Wait()] is over *)

Definition step (s : state) (e : event) : option state :=
  match e with
  | AddHandler method handler =>
      Some {| handlers_of := addHandler method handler (handlers_of s);
              ctx_done := ctx_done s; wg := wg s; loops := loops s;
              stopping := stopping s; spawned := spawned s |}
  | StartSubscribes =>
      Some {| handlers_of := handlers_of s; ctx_done := ctx_done s;
              wg := S (wg s); loops := S (loops s);
              stopping := stopping s; spawned := spawned s |}
  | StartFails => Some s
  | Deliver notification =>
      match loops s with
      | O => None
      | S _ =>
          Some {| handlers_of := handlers_of s; ctx_done := ctx_done s;
                  wg := wg s; loops := loops s; stopping := stopping s;
                  spawned := spawned s
                             ++ handleNotification (handlers_of s) notification |}
      end
  | LoopCtxDone =>
      match loops s, ctx_done s with
      | S n, true =>
          Some {| handlers_of := handlers_of s; ctx_done := ctx_done s;
                  wg := wg s - 1; loops := n; stopping := stopping s;
                  spawned := spawned s |}
      | _, _ => None
      end
  | StopCancel =>
      match stopping s with
      | CloseNotCalled =>
          Some {| handlers_of := handlers_of s; ctx_done := true; wg := wg s;
                  loops := loops s; stopping := CloseCancelled;
                  spawned := spawned s |}
      | _ => None
      end
  | StopReturn =>
      match stopping s, wg s with
      | CloseCancelled, O =>
          Some {| handlers_of := handlers_of s; ctx_done := ctx_done s;
                  wg := wg s; loops := loops s; stopping := CloseReturned;
                  spawned := spawned s |}
      | _, _ => None
      end
  end.

Fixpoint run (s : state) (evs : list event) : option state :=
  match evs with
  | [] => Some s
  | e :: evs' =>
      match step s e with
      | Some s' => run s' evs'
      | None => None
      end
  end.

Definition is_start (e : event) : bool :=
  match e with
  | StartSubscribes => true
  | _ => false
  end.

End Handlers.

End SSEEventHandler.

(* ================================================================== *)
(** ** The client factory of the guide *)

Module ClientFactory.

(** The values stored in [configs]: a [client.StdioOptions], or the anonymous
    struct [{BaseURL, Headers}] the two HTTP setters store. *)
Inductive config : Type :=
  | StdioOptions (Command : string) (Args : list string)
  | URLConfig (BaseURL : string) (Headers : gmap string string).

(** The options [CreateClient] builds. *)
Inductive transport_option : Type :=
  | WithHTTPHeaders (headers : gmap string string)
  | WithHeaders (headers : gmap string string).

(** The constructor whose result [CreateClient] returns. *)
Inductive constructor_call : Type :=
  | NewStdioClientWithOptions (Command : string) (Args : list string)
  | NewStreamableHttpClient (BaseURL : string) (options : list transport_option)
  | NewSSEMCPClient (BaseURL : string) (options : list transport_option).

(** [NewClientFactory()]. *)
Definition NewClientFactory : gmap string config := ∅.

Definition SetStdioConfig (command : string) (args : list string)
    (configs : gmap string config) : gmap string config :=
  <["stdio" := StdioOptions command args]> configs.

Definition SetStreamableHTTPConfig (baseURL : string) (headers : gmap string string)
    (configs : gmap string config) : gmap string config :=
  <["streamablehttp" := URLConfig baseURL headers]> configs.

Definition SetSSEConfig (baseURL : string) (headers : gmap string string)
    (configs : gmap string config) : gmap string config :=
  <["sse" := URLConfig baseURL headers]> configs.

(** [CreateClient(transport)]: the error it returns itself, or the
    constructor it hands over to. *)
Definition CreateClient (configs : gmap string config) (transport : string)
  : result constructor_call :=
  if String.eqb transport "stdio" then
    match configs !! "stdio" with
    | Some (StdioOptions command args) => ok (NewStdioClientWithOptions command args)
    | _ => err "stdio config not set"
    end
  else if String.eqb transport "streamablehttp" then
    match configs !! "streamablehttp" with
    | Some (URLConfig baseURL headers) =>
        let options := if (0 <? size headers)%nat then [WithHTTPHeaders headers] else [] in
        ok (NewStreamableHttpClient baseURL options)
    | _ => err "streamablehttp config not set"
    end
  else if String.eqb transport "sse" then
    match configs !! "sse" with
    | Some (URLConfig baseURL headers) =>
        let options := if (0 <? size headers)%nat then [WithHeaders headers] else [] in
        ok (NewSSEMCPClient baseURL options)
    | _ => err "sse config not set"
    end
  else err ("unknown transport: " +:+ transport).

(** The transports [CreateClient] has a [case] for. *)
Definition known (transport : string) : bool :=
  String.eqb transport "stdio" || String.eqb transport "streamablehttp"
  || String.eqb transport "sse".

End ClientFactory.

(* ================================================================== *)
(** ** Errors and their classification in the guide *)

(** Go errors as the guide's code makes and meets them: a sentinel made by
    [errors.New] and kept in a package variable (told apart by that
    variable), or an error made by [fmt.Errorf], which wraps the errors
    passed under [%w] (none, one, or several). *)
#[warnings="-register-all"]
Inductive error : Type :=
  | errors_New (variable : string) (text : string)
  | fmt_Errorf (text : string) (wrapped : list error).

(** [err.Error()]. *)
Definition Error (e : error) : string :=
  match e with
  | errors_New _ text => text
  | fmt_Errorf text _ => text
  end.

(** [errors.Is(err, target)] for a sentinel [target]: the tree under [err]
    holds the sentinel. *)
Fixpoint errors_Is (e : error) (target : string) : bool :=
  match e with
  | errors_New variable _ => String.eqb variable target
  | fmt_Errorf _ wrapped => existsb (fun e' => errors_Is e' target) wrapped
  end.

(** [fmt.Errorf(prefix + "%w", err)]. *)
Definition Errorf_w (prefix : string) (e : error) : error :=
  fmt_Errorf (prefix +:+ Error e) [e].

Definition ErrProcessExited : error := errors_New "ErrProcessExited" "process exited".
Definition ErrProcessTimeout : error := errors_New "ErrProcessTimeout" "process timeout".
Definition ErrBrokenPipe : error := errors_New "ErrBrokenPipe" "broken pipe".
Definition ErrConnectionLost : error := errors_New "ErrConnectionLost" "connection lost".
Definition ErrConnectionFailed : error :=
  errors_New "ErrConnectionFailed" "connection failed".
Definition ErrUnauthorized : error := errors_New "ErrUnauthorized" "unauthorized".
Definition ErrForbidden : error := errors_New "ErrForbidden" "forbidden".

Definition isProcessError (e : error) : bool :=
  errors_Is e "ErrProcessExited" || errors_Is e "ErrBrokenPipe"
  || errors_Is e "ErrProcessTimeout".

Definition isConnectionError (e : error) : bool :=
  errors_Is e "ErrConnectionLost" || errors_Is e "ErrConnectionFailed".

Definition isAuthError (e : error) : bool :=
  errors_Is e "ErrUnauthorized" || errors_Is e "ErrForbidden".

(** What [handleStdioErrors] does to the client and the log. *)
Inductive action : Type :=
  | Println (line : string)
  | Kill
  | Restart.

(** [if restartErr := c.Restart(); restartErr != nil { log.Printf(...) }]. *)
Definition restart_and_report (restartErr : option error) : list action :=
  Restart ::
  match restartErr with
  | Some e => [Println ("Failed to restart: " +:+ Error e)]
  | None => []
  end.

(** [handleStdioErrors(c)], given what [c.CallTool] returned and what
    [c.Restart()] returns when called. *)
Definition handleStdioErrors (result : string) (callErr : option error)
    (restartErr : option error) : list action :=
  match callErr with
  | Some e =>
      if errors_Is e "ErrProcessExited" then
        Println "Server process exited unexpectedly" :: restart_and_report restartErr
      else if errors_Is e "ErrProcessTimeout" then
        Println "Server process timed out" :: Kill :: restart_and_report restartErr
      else if errors_Is e "ErrBrokenPipe" then
        Println "Communication pipe broken" :: restart_and_report restartErr
      else [Println ("Unexpected error: " +:+ Error e)]
  | None => [Println ("Tool result: " +:+ result)]
  end.

(** [ManagedStdioClient.CallTool]: what it returns and what it leaves on
    [restartChan], given whether [msc.client] is set and what the client's
    own [CallTool] returns. *)
Definition ManagedStdioClient_CallTool (client_set : bool)
    (result : option string) (callErr : option error) (restartChan : chan)
  : option string * option error * chan :=
  if negb client_set then
    (None, Some (fmt_Errorf "client not available" []), restartChan)
  else
    match callErr with
    | Some e =>
        if isProcessError e then
          (None, Some (Errorf_w "process error, restarting: " e),
           try_send restartChan)
        else (result, callErr, restartChan)
    | None => (result, callErr, restartChan)
    end.

(** [ResilientSSEClient.CallTool], in the same way. *)
Definition ResilientSSEClient_CallTool (client_set : bool)
    (result : option string) (callErr : option error) (reconnectCh : chan)
  : option string * option error * chan :=
  if negb client_set then
    (None, Some (fmt_Errorf "client not connected" []), reconnectCh)
  else
    match callErr with
    | Some e =>
        if isConnectionError e then
          (None, Some (Errorf_w "connection error: " e), try_send reconnectCh)
        else (result, callErr, reconnectCh)
    | None => (result, callErr, reconnectCh)
    end.

(** The attempt counter of [reconnectLoop] is between 1 and 5 wherever the
    loop stands. *)
Definition attempt_in_range (pc : ResilientSSEClient.loop_pc) : Prop :=
  match pc with
  | ResilientSSEClient.AtConnect attempt
  | ResilientSSEClient.AtBackoff attempt => (1 <= attempt <= 5)%nat
  | _ => True
  end.

Definition wait_in_range (d : Z) : Prop := 1 * Second <= d <= 5 * Second.

(** The content type [http.Error] sets. *)
Definition text_plain : string := "text/plain; charset=utf-8".

(** Status and Content-Type of a reply, as the client sees them. *)
Definition reply_summary (w : ResponseWriter) : Z * string :=
  (response_status w, response_header w "Content-Type").

(* ================================================================== *)
(** ** [encoding/json]: reading one value off a stream *)

Definition quote_char : ascii := ascii_of_nat 34.
Definition backslash_char : ascii := ascii_of_nat 92.

(** The white space of JSON: space, tab, line feed, carriage return. *)
Definition is_space (c : ascii) : bool :=
  existsb (Nat.eqb (nat_of_ascii c)) [32; 9; 10; 13]%nat.

Fixpoint skip_space (s : string) : string :=
  match s with
  | String c s' => if is_space c then skip_space s' else s
  | EmptyString => s
  end.

Definition is_hex (c : ascii) : bool :=
  is_digit c
  || ((97 <=? nat_of_ascii c)%nat && (nat_of_ascii c <=? 102)%nat)
  || ((65 <=? nat_of_ascii c)%nat && (nat_of_ascii c <=? 70)%nat).

(** The characters that may follow a backslash, [u] apart. *)
Definition is_escape (c : ascii) : bool :=
  existsb (Ascii.eqb c)
    [quote_char; backslash_char; "/"; "b"; "f"; "n"; "r"; "t"]%char.

(** A string, read from behind its opening quote: what follows its closing
    quote. Control characters and unknown escapes are errors. *)
Fixpoint scan_string (s : string) : option string :=
  match s with
  | EmptyString => None
  | String c s' =>
      if Ascii.eqb c quote_char then Some s'
      else if Ascii.eqb c backslash_char then
        match s' with
        | EmptyString => None
        | String e s'' =>
            if is_escape e then scan_string s''
            else if Ascii.eqb e "u" then
              match s'' with
              | String h1 (String h2 (String h3 (String h4 s5))) =>
                  if is_hex h1 && is_hex h2 && is_hex h3 && is_hex h4
                  then scan_string s5 else None
              | _ => None
              end
            else None
        end
      else if (nat_of_ascii c <? 32)%nat then None
      else scan_string s'
  end.

Fixpoint skip_digits (s : string) : string :=
  match s with
  | String c s' => if is_digit c then skip_digits s' else s
  | EmptyString => s
  end.

(** One digit or more. *)
Definition scan_digits (s : string) : option string :=
  match s with
  | String c s' => if is_digit c then Some (skip_digits s') else None
  | EmptyString => None
  end.

Definition scan_exponent (s : string) : option string :=
  match s with
  | String c s' =>
      if Ascii.eqb c "e" || Ascii.eqb c "E" then
        match s' with
        | String sign s'' =>
            if Ascii.eqb sign "+" || Ascii.eqb sign "-"
            then scan_digits s'' else scan_digits s'
        | EmptyString => None
        end
      else Some s
  | EmptyString => Some s
  end.

Definition scan_fraction (s : string) : option string :=
  match s with
  | String c s' =>
      if Ascii.eqb c "." then
        match scan_digits s' with
        | Some r => scan_exponent r
        | None => None
        end
      else scan_exponent s
  | EmptyString => Some s
  end.

Definition scan_number (s : string) : option string :=
  let unsigned :=
    match s with
    | String c s' => if Ascii.eqb c "-" then s' else s
    | EmptyString => s
    end in
  match unsigned with
  | String c s' =>
      if Ascii.eqb c "0" then scan_fraction s'
      else if is_digit c then scan_fraction (skip_digits s')
      else None
  | EmptyString => None
  end.

Fixpoint string_drop (n : nat) (s : string) : string :=
  match n, s with
  | S n', String _ s' => string_drop n' s'
  | _, _ => s
  end.

Definition scan_literal (literal s : string) : option string :=
  if strings_HasPrefix s literal
  then Some (string_drop (String.length literal) s) else None.

(** The scanner's [maxNestingDepth]. *)
Definition maxNestingDepth : nat := 100 * 100.

(** One JSON value at the head of [s], white space before it skipped: what
    follows the value, or [None] when there is no well-formed value there.
    [depth] counts the arrays and objects the value lies in; [fuel] bounds
    the recursion and [2 * length s + 2] is enough of it. *)
Fixpoint scan_value (fuel depth : nat) (s : string) : option string :=
  match fuel with
  | O => None
  | S fuel' =>
      match skip_space s with
      | EmptyString => None
      | String c r =>
          if Ascii.eqb c "{" then
            if (maxNestingDepth <? S depth)%nat then None
            else match skip_space r with
                 | String c' r' =>
                     if Ascii.eqb c' "}" then Some r'
                     else scan_members fuel' (S depth) r
                 | EmptyString => None
                 end
          else if Ascii.eqb c "[" then
            if (maxNestingDepth <? S depth)%nat then None
            else match skip_space r with
                 | String c' r' =>
                     if Ascii.eqb c' "]" then Some r'
                     else scan_elements fuel' (S depth) r
                 | EmptyString => None
                 end
          else if Ascii.eqb c quote_char then scan_string r
          else if Ascii.eqb c "t" then scan_literal "true" (String c r)
          else if Ascii.eqb c "f" then scan_literal "false" (String c r)
          else if Ascii.eqb c "n" then scan_literal "null" (String c r)
          else scan_number (String c r)
      end
  end
with scan_elements (fuel depth : nat) (s : string) : option string :=
  match fuel with
  | O => None
  | S fuel' =>
      match scan_value fuel' depth s with
      | Some r =>
          match skip_space r with
          | String c r' =>
              if Ascii.eqb c "," then scan_elements fuel' depth r'
              else if Ascii.eqb c "]" then Some r'
              else None
          | EmptyString => None
          end
      | None => None
      end
  end
with scan_members (fuel depth : nat) (s : string) : option string :=
  match fuel with
  | O => None
  | S fuel' =>
      match skip_space s with
      | String c r =>
          if Ascii.eqb c quote_char then
            match scan_string r with
            | Some r1 =>
                match skip_space r1 with
                | String c1 r2 =>
                    if Ascii.eqb c1 ":" then
                      match scan_value fuel' depth r2 with
                      | Some r3 =>
                          match skip_space r3 with
                          | String c3 r4 =>
                              if Ascii.eqb c3 "," then scan_members fuel' depth r4
                              else if Ascii.eqb c3 "}" then Some r4
                              else None
                          | EmptyString => None
                          end
                      | None => None
                      end
                    else None
                | EmptyString => None
                end
            | None => None
            end
          else None
      | EmptyString => None
      end
  end.

(** The first value of [body] and the text behind it. *)
Definition json_scan (body : string) : option (string * string) :=
  match scan_value (2 * String.length body + 2) 0 body with
  | Some rest =>
      let start := skip_space body in
      Some (substring 0 (String.length start - String.length rest) start, rest)
  | None => None
  end.

(** [json.Valid(body)]: the whole of [body] is one JSON value, white space
    around it allowed. *)
Definition json_Valid (body : string) : bool :=
  match json_scan body with
  | Some (_, rest) => String.eqb (skip_space rest) ""
  | None => false
  end.

(** [json.NewDecoder(body).Decode(&rawMessage)], first call: the decoder
    reads the next value off the stream and does not look at what follows
    it; an empty body, or one that does not start with a well-formed value,
    is an error. *)
Definition Decoder_Decode (body : string) : option string :=
  match json_scan body with
  | Some (raw, _) => Some raw
  | None => None
  end.




(** A platform for the examples: channels of up to 2^45 - 12 pointers. *)
Definition sample_platform : Platform :=
  {| max_chan_cap := 2 ^ 45 - 12;
     max_chan_cap_int := ltac:(vm_compute; discriminate) |}.

Example canonical_lower : CanonicalMIMEHeaderKey "content-type" = "Content-Type".
Proof. reflexivity. Qed.

Example contains_json :
  strings_Contains "text/html, application/json;q=0.9" "application/json" = true.
Proof. reflexivity. Qed.

Example error_406 :
  response_status (http_Error new_ResponseWriter "x" StatusNotAcceptable) = 406.
Proof. reflexivity. Qed.

Example demo_ping_body :
  response_body (serve demo_server
    (demo_request "POST" [("Accept", "application/json, text/event-stream");
                          ("Content-Type", "application/json")] ping_request))
  = "{" +:+ quoted "jsonrpc" +:+ ":" +:+ quoted "2.0" +:+ "," +:+ quoted "id"
        +:+ ":1," +:+ quoted "result" +:+ ":{}}" +:+ newline.
Proof. vm_compute. reflexivity. Qed.

Example demo_parse_error :
  response_body (serve demo_server
    (demo_request "POST" [("Accept", "application/json, text/event-stream");
                          ("Content-Type", "application/json")] "{not json"))
  = "{" +:+ quoted "jsonrpc" +:+ ":" +:+ quoted "2.0" +:+ "," +:+ quoted "id"
        +:+ ":null," +:+ quoted "error" +:+ ":{" +:+ quoted "code" +:+ ":-32700,"
        +:+ quoted "message" +:+ ":" +:+ quoted "Parse error" +:+ "}}" +:+ newline.
Proof. vm_compute. reflexivity. Qed.

(* ================================================================== *)
(** ** The response writer *)

Lemma rw_sent_Set key value w : rw_sent (rw_Set key value w) = rw_sent w.
Proof. reflexivity. Qed.

Lemma rw_sent_Del key w : rw_sent (rw_Del key w) = rw_sent w.
Proof. reflexivity. Qed.

Lemma WriteHeader_first code w :
  rw_sent w = None ->
  rw_sent (WriteHeader code w) = Some (code, rw_header w).
Proof. intros Hw. unfold WriteHeader. rewrite Hw. reflexivity. Qed.

Lemma WriteHeader_again code w x :
  rw_sent w = Some x -> WriteHeader code w = w.
Proof. intros Hw. unfold WriteHeader. rewrite Hw. reflexivity. Qed.

Lemma Write_after_header data w x :
  rw_sent w = Some x ->
  rw_sent (Write data w) = Some x /\ rw_body (Write data w) = rw_body w +:+ data.
Proof.
  intros Hw. unfold Write. rewrite (WriteHeader_again _ _ _ Hw). simpl. auto.
Qed.

(** On a response whose status line is not out yet, [http.Error] decides the
    status and appends the message and a newline to the body. *)
Lemma http_Error_first w e code :
  rw_sent w = None ->
  response_status (http_Error w e code) = code /\
  response_body (http_Error w e code) = rw_body w +:+ e +:+ newline.
Proof.
  intros Hw. unfold http_Error, response_status, response_body.
  set (w3 := rw_Set _ _ (rw_Set _ _ (rw_Del _ w))).
  assert (H3 : rw_sent w3 = None) by exact Hw.
  destruct (Write_after_header (e +:+ newline) _ _ (WriteHeader_first code w3 H3))
    as [Hs Hb].
  rewrite Hs, Hb. split; [reflexivity|].
  unfold WriteHeader. rewrite H3. reflexivity.
Qed.

(** Once the status line is out, [http.Error] can no longer change it, nor
    the headers that went with it. *)
Lemma http_Error_late w e code x :
  rw_sent w = Some x ->
  rw_sent (http_Error w e code) = Some x /\
  rw_body (http_Error w e code) = rw_body w +:+ e +:+ newline.
Proof.
  intros Hw. unfold http_Error.
  set (w3 := rw_Set _ _ (rw_Set _ _ (rw_Del _ w))).
  assert (H3 : rw_sent w3 = Some x) by exact Hw.
  rewrite (WriteHeader_again code w3 x H3).
  destruct (Write_after_header (e +:+ newline) w3 x H3) as [Hs Hb].
  rewrite Hs, Hb. auto.
Qed.

Lemma length_append (s t : string) :
  String.length (s +:+ t) = (String.length s + String.length t)%nat.
Proof. induction s as [|c s IH]; simpl; [reflexivity | now rewrite IH]. Qed.

Lemma append_nonempty_neq (s t : string) : t <> "" -> s +:+ t <> s.
Proof.
  intros Ht Heq. apply (f_equal String.length) in Heq.
  rewrite length_append in Heq. destruct t; [congruence | simpl in Heq; lia].
Qed.

Lemma ends_with_newline_nonempty s : ends_with_newline s = true -> s <> "".
Proof. destruct s; simpl; congruence. Qed.

Section StatelessHTTPFacts.
Context `{Externals}.

(** ** [processMessage], branch by branch *)

Lemma accepts_both_passes r : accepts_both r = true -> accept_passes r = true.
Proof.
  unfold accepts_both, accept_passes.
  destruct (strings_Contains _ "application/json"),
           (strings_Contains _ "text/event-stream"); simpl; auto.
Qed.

Lemma serve_on_path s r :
  URL_Path r = basePath s ->
  serve s r = fst (processMessage s new_ResponseWriter r (mkConsole "" "")).
Proof.
  intros Hp. unfold serve, ServeHTTP. rewrite Hp, String.eqb_refl. reflexivity.
Qed.

Lemma processMessage_not_acceptable s w r c :
  accept_passes r = false ->
  processMessage s w r c =
  (http_Error w
     "Not Acceptable: Client must accept both application/json and text/event-stream"
     StatusNotAcceptable, c).
Proof.
  unfold accept_passes, processMessage. intros Ha.
  apply orb_false_elim in Ha as [-> ->]. reflexivity.
Qed.

Lemma processMessage_unsupported s w r c :
  accept_passes r = true ->
  Header_Get (Header r) "Content-Type" <> "application/json" ->
  processMessage s w r c =
  (http_Error w "Unsupported Media Type: Content-Type must be application/json"
     StatusUnsupportedMediaType, c).
Proof.
  unfold accept_passes, processMessage. intros Ha Hc.
  apply String.eqb_neq in Hc. rewrite Hc.
  destruct (strings_Contains _ "application/json"),
           (strings_Contains _ "text/event-stream"); simpl in *;
    congruence || reflexivity.
Qed.

Lemma processMessage_validated s w r c :
  accept_passes r = true ->
  Header_Get (Header r) "Content-Type" = "application/json" ->
  processMessage s w r c =
  if String.eqb (Method r) MethodGet then
    (http_Error w "Method Not Allowed" StatusMethodNotAllowed, c)
  else if negb (String.eqb (Method r) MethodPost) then
    (http_Error w "Method Not Allowed" StatusMethodNotAllowed, c)
  else
    match json_Decode (Body r) with
    | None => (writeJSONRPCError s w IdNil PARSE_ERROR "Parse error", c)
    | Some rawMessage =>
        match HandleMessage (server s) (Context_ r) rawMessage with
        | Some response =>
            let w := rw_Set "content-type" "application/json" w in
            let w := WriteHeader StatusOK w in
            match Encode response w with
            | (w, Some e) =>
                let c := Logger_Printf (errLogger s)
                           ("Error writing response: " +:+ e) c in
                (http_Error w "Internal Server Error" StatusInternalServerError, c)
            | (w, None) => (w, c)
            end
        | None => (WriteHeader StatusAccepted w, c)
        end
    end.
Proof.
  unfold accept_passes. intros Ha Hc. unfold processMessage at 1.
  rewrite Hc. change (String.eqb "application/json" "application/json") with true.
  destruct (strings_Contains _ "application/json"),
           (strings_Contains _ "text/event-stream"); simpl in *;
    congruence || reflexivity.
Qed.

(** The response writer after [w.Header().Set("content-type", ...)] and
    [w.WriteHeader(200)] on a fresh response. *)
Lemma ok_header_sent :
  rw_sent (WriteHeader StatusOK
             (rw_Set "content-type" "application/json" new_ResponseWriter))
  = Some (StatusOK, {[ "Content-Type" := ["application/json"] ]}).
Proof. reflexivity. Qed.

Lemma bad_request_header_sent :
  rw_sent (WriteHeader StatusBadRequest
             (rw_Set "Content-Type" "application/json" new_ResponseWriter))
  = Some (StatusBadRequest, {[ "Content-Type" := ["application/json"] ]}).
Proof. reflexivity. Qed.

Lemma method_post_is_not_get m :
  m = MethodPost -> String.eqb m MethodGet = false /\ String.eqb m MethodPost = true.
Proof. intros ->. split; reflexivity. Qed.

(** Status of the answer to a request that got past both header checks. *)
Lemma validated_status s r :
  accept_passes r = true ->
  Header_Get (Header r) "Content-Type" = "application/json" ->
  let w := fst (processMessage s new_ResponseWriter r (mkConsole "" "")) in
  response_status w = StatusMethodNotAllowed \/
  response_status w = StatusBadRequest \/
  response_status w = StatusOK \/
  response_status w = StatusAccepted.
Proof.
  intros Ha Hc. cbv zeta. rewrite (processMessage_validated _ _ _ _ Ha Hc).
  destruct (String.eqb (Method r) MethodGet); [left; reflexivity|].
  destruct (String.eqb (Method r) MethodPost); [|left; reflexivity]. simpl negb. cbv iota.
  destruct (json_Decode (Body r)) as [raw|].
  - destruct (HandleMessage _ _ raw) as [resp|]; [|do 3 right; reflexivity].
    right; right; left. cbv zeta. unfold Encode.
    destruct (json_Encode resp) as [bytes|e]; unfold response_status, fst.
    + destruct (Write_after_header bytes _ _ ok_header_sent) as [-> _]. reflexivity.
    + destruct (http_Error_late _ "Internal Server Error" StatusInternalServerError
                  _ ok_header_sent) as [-> _]. reflexivity.
  - right; left. unfold writeJSONRPCError, Encode, response_status.
    destruct (json_Encode _) as [bytes|e]; unfold fst.
    + destruct (Write_after_header bytes _ _ bad_request_header_sent) as [-> _].
      reflexivity.
    + rewrite bad_request_header_sent. reflexivity.
Qed.

(** ** The stateless HTTP endpoint *)

(** What the Accept check does reject: a request whose Accept header names
    neither media type. *)
Lemma accept_neither_406 s r :
  URL_Path r = basePath s ->
  accept_passes r = false ->
  response_status (serve s r) = StatusNotAcceptable.
Proof.
  intros Hp Ha. rewrite (serve_on_path _ _ Hp).
  rewrite (processMessage_not_acceptable _ _ _ _ Ha). reflexivity.
Qed.

(** C1 (the code does not do this): a request to the message path whose
    Accept header names one of [application/json] and [text/event-stream] but
    not both is not answered with 406; the check lets it through to the
    Content-Type and method checks. *)
Theorem accept_one_type_not_rejected s r :
  URL_Path r = basePath s ->
  accept_passes r = true ->
  accepts_both r = false ->
  response_status (serve s r) <> StatusNotAcceptable.
Proof.
  intros Hp Ha _. rewrite (serve_on_path _ _ Hp).
  destruct (string_dec (Header_Get (Header r) "Content-Type") "application/json")
    as [Hc|Hc].
  - destruct (validated_status s r Ha Hc) as [E|[E|[E|E]]];
      cbv zeta in E; rewrite E; discriminate.
  - rewrite (processMessage_unsupported _ _ _ _ Ha Hc). unfold fst.
    destruct (http_Error_first new_ResponseWriter
                "Unsupported Media Type: Content-Type must be application/json"
                StatusUnsupportedMediaType eq_refl) as [-> _].
    discriminate.
Qed.

(** C2 (as amended): a GET to the message path whose Accept header advertises
    both media types and whose Content-Type is [application/json] is answered
    with 405, whatever its body and other headers. *)
Theorem get_after_header_checks_405 s r :
  URL_Path r = basePath s ->
  Method r = MethodGet ->
  accepts_both r = true ->
  Header_Get (Header r) "Content-Type" = "application/json" ->
  response_status (serve s r) = StatusMethodNotAllowed.
Proof.
  intros Hp Hm Ha Hc. rewrite (serve_on_path _ _ Hp).
  rewrite (processMessage_validated _ _ _ _ (accepts_both_passes _ Ha) Hc).
  rewrite Hm. reflexivity.
Qed.

(** C3 (as amended): a request to the message path whose Accept header
    advertises both media types and whose Content-Type is [text/plain] is
    answered with 415, whatever its body. *)
Theorem text_plain_415 s r :
  URL_Path r = basePath s ->
  accepts_both r = true ->
  Header_Get (Header r) "Content-Type" = "text/plain" ->
  response_status (serve s r) = StatusUnsupportedMediaType.
Proof.
  intros Hp Ha Hc. rewrite (serve_on_path _ _ Hp).
  rewrite (processMessage_unsupported _ _ _ _ (accepts_both_passes _ Ha)).
  - reflexivity.
  - rewrite Hc. discriminate.
Qed.



(** ** The constructor *)

Lemma apply_options_app opts1 opts2 svr :
  apply_options (opts1 ++ opts2) svr = apply_options opts2 (apply_options opts1 svr).
Proof. revert svr. induction opts1 as [|opt opts1 IH]; intros svr; simpl; auto. Qed.

Lemma apply_options_fold opts svr :
  apply_options opts svr = fold_left (fun svr opt => opt svr) opts svr.
Proof. revert svr. induction opts as [|opt opts IH]; intros svr; simpl; auto. Qed.

Lemma apply_options_keeps {A} (field : StatelessHTTPServer -> A) opts svr :
  Forall (fun opt => forall s, field (opt s) = field s) opts ->
  field (apply_options opts svr) = field svr.
Proof.
  intros Hk. revert svr. induction Hk as [|opt opts Hopt _ IH]; intros svr; simpl.
  - reflexivity.
  - rewrite IH. apply Hopt.
Qed.

Lemma WithStatelessHTTPContextFunc_keeps fn :
  keeps_server (WithStatelessHTTPContextFunc fn) /\
  keeps_basePath (WithStatelessHTTPContextFunc fn).
Proof. split; intros s; reflexivity. Qed.

Lemma WithHTTPBasePath_keeps_server p : keeps_server (WithHTTPBasePath p).
Proof. intros s. reflexivity. Qed.

Lemma WithHTTPBasePath_sets p s : basePath (WithHTTPBasePath p s) = p.
Proof. reflexivity. Qed.

(** C6 (the code does not do this): without any option the error logger is
    [log.New(os.Stderr, "", log.LstdFlags)], and every message printed through
    it reaches standard error; nothing is discarded. *)
Theorem default_logger_writes_stderr (server0 : MCPServer) :
  errLogger (NewStatelessHTTPServer server0 []) = log_New os_Stderr "" LstdFlags /\
  forall msg c,
    stderr (Logger_Printf (errLogger (NewStatelessHTTPServer server0 [])) msg c)
    <> stderr c.
Proof.
  split; [reflexivity|]. intros msg c. unfold Logger_Printf. simpl.
  apply append_nonempty_neq.
  destruct (ends_with_newline _) eqn:E.
  - now apply ends_with_newline_nonempty.
  - unfold newline. destruct (log_stamp _ +:+ msg); discriminate.
Qed.

(** C10: the options are applied one after the other, in the order given, to
    a server holding the MCP server passed in and the base path ["/"]; options
    that leave the wrapped server alone (as both options of the package do)
    leave it the one passed in, and options that leave the base path alone
    (any but [WithHTTPBasePath]) leave it ["/"]. *)
Theorem NewStatelessHTTPServer_defaults (server0 : MCPServer)
    (opts : list StatelessHTTPOption) :
  Forall keeps_server opts ->
  server (NewStatelessHTTPServer server0 opts) = server0 /\
  (Forall keeps_basePath opts ->
   basePath (NewStatelessHTTPServer server0 opts) = "/") /\
  NewStatelessHTTPServer server0 opts =
    fold_left (fun svr opt => opt svr) opts (NewStatelessHTTPServer server0 []) /\
  forall opt, NewStatelessHTTPServer server0 (opts ++ [opt]) =
              opt (NewStatelessHTTPServer server0 opts).
Proof.
  intros Hs. unfold NewStatelessHTTPServer. cbv zeta.
  split; [|split; [|split]].
  - rewrite (apply_options_keeps server opts _ Hs). reflexivity.
  - intros Hb. rewrite (apply_options_keeps basePath opts _ Hb). reflexivity.
  - exact (apply_options_fold opts _).
  - intros opt. rewrite apply_options_app. reflexivity.
Qed.

End StatelessHTTPFacts.

(* ================================================================== *)
(** ** The trigger channel *)

Lemma try_send_cap ch : chan_cap (try_send ch) = chan_cap ch.
Proof. unfold try_send. destruct (_ <? _)%nat; reflexivity. Qed.

Lemma try_send_bounded ch :
  (chan_len ch <= chan_cap ch)%nat ->
  (chan_len (try_send ch) <= chan_cap ch)%nat.
Proof.
  unfold try_send. destruct (chan_len ch <? chan_cap ch)%nat eqn:E; simpl; [|lia].
  apply Nat.ltb_lt in E. lia.
Qed.

(** A send on a full channel is dropped. *)
Lemma try_send_full ch : chan_len ch = chan_cap ch -> try_send ch = ch.
Proof.
  intros E. unfold try_send. rewrite E, Nat.ltb_irrefl. reflexivity.
Qed.

Lemma recv_shrinks ch ch' :
  recv ch = Some ch' ->
  chan_cap ch' = chan_cap ch /\ S (chan_len ch') = chan_len ch.
Proof.
  unfold recv. destruct (chan_len ch) eqn:E; [discriminate|].
  intros [= <-]. simpl. auto.
Qed.

Lemma backoff_small (attempt : nat) :
  (attempt <= 5)%nat -> ResilientSSEClient.backoff attempt = Z.of_nat attempt * Second.
Proof.
  intros Hle. do 6 (destruct attempt as [|attempt]; [reflexivity|]). lia.
Qed.

(* ================================================================== *)
(** ** [ResilientSSEClient] *)

Module ResilientSSEClientFacts.
Import ResilientSSEClient.

Lemma invariant_init : invariant NewResilientSSEClient.
Proof. unfold invariant. simpl. lia. Qed.

Lemma invariant_connected : invariant connected.
Proof. unfold invariant. simpl. lia. Qed.

Lemma invariant_step s e s' : invariant s -> step s e = Some s' -> invariant s'.
Proof.
  unfold invariant. intros (Hcap & Hlen & Hcnt) Hstep.
  destruct e; simpl in Hstep.
  - destruct (client_set s); injection Hstep as <-; [|auto].
    simpl. rewrite try_send_cap.
    split; [assumption|]. split; [|assumption].
    rewrite <- Hcap. apply try_send_bounded. lia.
  - destruct (loop s) eqn:El; try discriminate.
    destruct (recv (reconnectCh s)) as [ch|] eqn:Er; [|discriminate].
    injection Hstep as <-. simpl in *.
    destruct (recv_shrinks _ _ Er) as [Hc Hl]. lia.
  - destruct (ctx_done s); [|discriminate].
    destruct (loop s) eqn:El; try discriminate;
      injection Hstep as <-; simpl in *; lia.
  - destruct (loop s) eqn:El; try discriminate.
    injection Hstep as <-. simpl in *. lia.
  - destruct (loop s) eqn:El; try discriminate.
    injection Hstep as <-. simpl in *. lia.
  - destruct (loop s) eqn:El; try discriminate.
    destruct (_ <=? _)%nat; injection Hstep as <-; simpl in *; lia.
  - destruct (closing s); try discriminate.
    injection Hstep as <-. simpl in *. auto.
  - destruct (closing s); try discriminate.
    injection Hstep as <-. simpl in *. auto.
Qed.

Lemma invariant_run evs : forall s s', invariant s -> run s evs = Some s' -> invariant s'.
Proof.
  induction evs as [|e evs IH]; simpl; intros s s' Hi Hr.
  - injection Hr as <-. assumption.
  - destruct (step s e) as [s1|] eqn:Es; [|discriminate].
    eapply IH; [|eassumption]. eapply invariant_step; eassumption.
Qed.

(** From attempt [a] on, [n] failed attempts with their waits, as long as
    they fit in the five attempts of a round. *)
Lemma failed_attempts_from n : forall s a,
  loop s = AtConnect a -> (1 <= a <= 5)%nat -> (a + n <= 6)%nat ->
  exists s', run s (failed_attempts n) = Some s' /\
    waited s' = waited s ++ map backoff (seq a n) /\
    loop s' = (if (a + n <=? 5)%nat then AtConnect (a + n) else AtSelect).
Proof.
  induction n as [|n IH]; intros s a Hl Ha Hn.
  - exists s. simpl. rewrite app_nil_r, Nat.add_0_r.
    destruct (Nat.leb_spec a 5); [auto | lia].
  - unfold failed_attempts. cbn -[Nat.leb]. rewrite Hl. cbn -[Nat.leb].
    destruct (Nat.leb_spec (S a) 5) as [Hle|Hgt].
    + destruct a as [|a]; [lia|].
      set (s1 := set_loop _ (AtConnect (S (S a))) _ _ _).
      destruct (IH s1 (S (S a)) eq_refl ltac:(lia) ltac:(lia)) as (s' & Hr & Hw & Hp).
      exists s'. split; [exact Hr|]. split.
      * rewrite Hw. simpl. rewrite <- app_assoc. reflexivity.
      * rewrite Hp. replace (S a + S n)%nat with (S (S a) + n)%nat by lia. reflexivity.
    + assert (n = 0%nat) by lia. subst n. simpl.
      eexists. split; [reflexivity|]. simpl. split; [reflexivity|].
      destruct (Nat.leb_spec (a + 1) 5); [lia | reflexivity].
Qed.

Lemma lookup_backoffs n : forall a k,
  (k < n)%nat -> map backoff (seq a n) !! k = Some (backoff (a + k)).
Proof.
  induction n as [|n IH]; intros a k Hk; [lia|].
  destruct k as [|k]; simpl.
  - rewrite Nat.add_0_r. reflexivity.
  - rewrite (IH (S a) k) by lia. f_equal. f_equal. lia.
Qed.

(** C7 (as amended): within the round of one trigger (at most five attempts),
    the delay waited after the k-th failed attempt in a row is k seconds, so
    the delays of the round are strictly increasing; in particular across
    three failures in a row. *)
Theorem backoff_linear_within_round (s : state) (n : nat) :
  loop s = AtConnect 1 ->
  (n <= 5)%nat ->
  exists s' delays,
    run s (failed_attempts n) = Some s' /\
    waited s' = waited s ++ delays /\
    length delays = n /\
    (forall k, (k < n)%nat -> delays !! k = Some (Z.of_nat (S k) * Second)) /\
    (forall i j di dj, (i < j)%nat ->
       delays !! i = Some di -> delays !! j = Some dj -> di < dj).
Proof.
  intros Hl Hn.
  destruct (failed_attempts_from n s 1 Hl ltac:(lia) ltac:(lia)) as (s' & Hr & Hw & _).
  assert (Hk : forall k, (k < n)%nat ->
            map backoff (seq 1 n) !! k = Some (Z.of_nat (S k) * Second)).
  { intros k Hk. rewrite lookup_backoffs by assumption.
    rewrite backoff_small by lia. reflexivity. }
  assert (Hlen : length (map backoff (seq 1 n)) = n)
    by (rewrite length_map, length_seq; reflexivity).
  exists s', (map backoff (seq 1 n)).
  split; [exact Hr|]. split; [exact Hw|]. split; [exact Hlen|]. split; [exact Hk|].
  intros i j di dj Hij Hi Hj.
  assert (Hjn : (j < n)%nat).
  { rewrite <- Hlen. eapply lookup_lt_Some. exact Hj. }
  rewrite Hk in Hi by lia. rewrite Hk in Hj by lia.
  injection Hi as <-. injection Hj as <-. unfold Second. lia.
Qed.

(** C8: in every state the client can reach, from the constructor's state or
    from [connected], at most one trigger is pending on [reconnectCh]; a
    failure signal raised while one is pending changes nothing; and at most
    one recovery round is in progress. *)
Theorem trigger_single_flight (s0 : state) (evs : list event) (s : state) :
  s0 = NewResilientSSEClient \/ s0 = connected ->
  run s0 evs = Some s ->
  (chan_len (reconnectCh s) <= 1)%nat /\
  (chan_len (reconnectCh s) = 1%nat -> step s SignalFailure = Some s) /\
  (in_progress s <= 1)%nat.
Proof.
  intros H0 Hr.
  assert (Hi0 : invariant s0)
    by (destruct H0 as [-> | ->]; [apply invariant_init | apply invariant_connected]).
  destruct (invariant_run evs _ _ Hi0 Hr) as (Hcap & Hlen & Hcnt).
  split; [exact Hlen|]. split.
  - intros Hfull. simpl. destruct (client_set s) eqn:Ec; [|reflexivity].
    rewrite try_send_full by congruence.
    destruct s; simpl in Ec; subst; reflexivity.
  - unfold in_progress. destruct (in_recovery (loop s)); lia.
Qed.

(** However many failure signals arrive in a row, one trigger is pending. *)
Lemma signals_collapse (k : nat) :
  option_map (fun s => chan_len (reconnectCh s))
    (run connected (repeat SignalFailure (S k))) = Some 1%nat.
Proof.
  assert (Hone : forall k s, chan_cap (reconnectCh s) = 1%nat ->
            chan_len (reconnectCh s) = 1%nat ->
            option_map (fun s => chan_len (reconnectCh s))
              (run s (repeat SignalFailure k)) = Some 1%nat).
  { clear k. induction k as [|k IH]; intros s Hc Hl; simpl; [now rewrite Hl|].
    destruct (client_set s); [|apply IH; assumption].
    rewrite try_send_full by congruence. apply IH; assumption. }
  simpl. apply Hone; reflexivity.
Qed.

(** [Close] cancels the context before it returns. *)
Lemma close_cancels (s0 : state) (evs : list event) (s : state) :
  closing s0 = CloseNotCalled ->
  run s0 evs = Some s ->
  closing s <> CloseNotCalled -> ctx_done s = true.
Proof.
  assert (Hinv : forall evs s s',
            (closing s <> CloseNotCalled -> ctx_done s = true) ->
            run s evs = Some s' ->
            closing s' <> CloseNotCalled -> ctx_done s' = true).
  { clear. induction evs as [|e evs IH]; simpl; intros s s' Hi Hr.
    - injection Hr as <-. exact Hi.
    - destruct (step s e) as [s1|] eqn:Es; [|discriminate].
      apply (IH s1 s'); [|exact Hr].
      destruct e; simpl in Es;
        repeat match type of Es with
               | context [match ?x with _ => _ end] => destruct x eqn:?
               | context [if ?x then _ else _] => destruct x eqn:?
               end;
        try discriminate; injection Es as <-; simpl; auto; congruence. }
  intros H0 Hr. apply (Hinv evs s0 s); [|exact Hr]. congruence.
Qed.

(** C9 (the code does not do this): [ResilientSSEClient.Close] returns while
    the goroutine running [reconnectLoop] has not returned, whether the loop
    is idle in its outer [select] (right after the constructor) or in the
    middle of a recovery round. *)
Theorem close_returns_before_loop_exits :
  option_map (fun s => (closing s, loop s))
    (run NewResilientSSEClient [CloseCancel; CloseReturn])
  = Some (CloseReturned, AtSelect) /\
  option_map (fun s => (closing s, loop s))
    (run connected
       [SignalFailure; LoopReceive; ConnectFails; CloseCancel; CloseReturn])
  = Some (CloseReturned, AtBackoff 1).
Proof. split; reflexivity. Qed.

Example round_started_reached :
  run connected [SignalFailure; LoopReceive] = Some round_started.
Proof. reflexivity. Qed.

Lemma backoff_linear_within_round_witness :
  exists s' delays,
    run round_started (failed_attempts 3) = Some s' /\
    waited s' = waited round_started ++ delays /\
    length delays = 3%nat /\
    (forall k, (k < 3)%nat -> delays !! k = Some (Z.of_nat (S k) * Second)) /\
    (forall i j di dj, (i < j)%nat ->
       delays !! i = Some di -> delays !! j = Some dj -> di < dj).
Proof. apply (backoff_linear_within_round round_started 3); [reflexivity | lia]. Defined.

(** C7, as stated, fails: the loop makes five attempts per trigger and counts
    from 1 again on the next trigger, so the sixth failed attempt in a row is
    followed by a wait of one second, after a wait of five. *)
Lemma sixth_failure_waits_one_second :
  option_map waited (run connected six_failures)
  = Some [1 * Second; 2 * Second; 3 * Second; 4 * Second; 5 * Second; 1 * Second]
  /\ 1 * Second < 6 * Second
  /\ 1 * Second < 5 * Second.
Proof. split; [reflexivity | split; reflexivity]. Qed.

Lemma trigger_single_flight_witness :
  (chan_len (reconnectCh trigger_pending) <= 1)%nat /\
  (chan_len (reconnectCh trigger_pending) = 1%nat ->
   step trigger_pending SignalFailure = Some trigger_pending) /\
  (in_progress trigger_pending <= 1)%nat.
Proof.
  apply (trigger_single_flight connected
           [SignalFailure; SignalFailure; SignalFailure]);
    [right; reflexivity | reflexivity].
Defined.

End ResilientSSEClientFacts.

(* ================================================================== *)
(** ** [ManagedStdioClient] *)

Module ManagedStdioClientFacts.
Import ManagedStdioClient.

Lemma monitor_invariant_init : invariant NewManagedStdioClient.
Proof. unfold invariant. simpl. repeat split; (lia || discriminate). Qed.

Lemma monitor_invariant_step s e s' : invariant s -> step s e = Some s' -> invariant s'.
Proof.
  unfold invariant. intros (Hcap & Hlen & Hwg & Hcl) Hstep.
  destruct e; simpl in Hstep;
    repeat match type of Hstep with
           | context [match ?x with _ => _ end] => destruct x eqn:?
           end;
    try discriminate; injection Hstep as <-; simpl in *;
    rewrite ?try_send_cap;
    repeat split; try assumption; try lia; try congruence;
    try (rewrite <- Hcap; apply try_send_bounded; lia);
    try (match goal with H : recv _ = Some _ |- _ =>
           destruct (recv_shrinks _ _ H); simpl in *; lia end).
Qed.

Lemma monitor_invariant_run evs : forall s s', invariant s -> run s evs = Some s' -> invariant s'.
Proof.
  induction evs as [|e evs IH]; simpl; intros s s' Hi Hr.
  - injection Hr as <-. assumption.
  - destruct (step s e) as [s1|] eqn:Es; [|discriminate].
    eapply IH; [|eassumption]. eapply monitor_invariant_step; eassumption.
Qed.

(** [ManagedStdioClient.Close] has returned only after the goroutine running
    [monitorProcess] has: [wg.Wait()] holds it until [wg.Done()]. *)
Lemma close_waits_for_monitor (evs : list event) (s : state) :
  run NewManagedStdioClient evs = Some s ->
  closing s = CloseReturned -> monitor s = MonitorReturned.
Proof.
  intros Hr Hc.
  destruct (monitor_invariant_run evs _ _ monitor_invariant_init Hr) as (_ & _ & Hwg & Hcl).
  specialize (Hcl Hc). rewrite Hcl in Hwg.
  destruct (monitor s); simpl in Hwg; congruence.
Qed.

(** At most one restart trigger is pending on [restartChan]. *)
Lemma restart_trigger_single_slot (evs : list event) (s : state) :
  run NewManagedStdioClient evs = Some s ->
  (chan_len (restartChan s) <= 1)%nat.
Proof.
  intros Hr. now destruct (monitor_invariant_run evs _ _ monitor_invariant_init Hr) as (_ & Hlen & _).
Qed.

End ManagedStdioClientFacts.

(* ================================================================== *)
(** ** The theorems at work on the test double *)

Lemma accept_one_type_not_rejected_witness :
  response_status
    (serve demo_server
       (demo_request "POST" [("Accept", "application/json");
                             ("Content-Type", "application/json")] ping_request))
  <> StatusNotAcceptable.
Proof.
  apply (@accept_one_type_not_rejected demo); vm_compute; reflexivity.
Defined.

(** What that request gets instead: the call is served. *)
Example accept_json_only_served :
  response_status
    (serve demo_server
       (demo_request "POST" [("Accept", "application/json");
                             ("Content-Type", "application/json")] ping_request))
  = StatusOK.
Proof. vm_compute. reflexivity. Qed.

Lemma get_after_header_checks_405_witness :
  response_status
    (serve demo_server
       (demo_request "GET" [("Accept", both_types);
                            ("Content-Type", "application/json")] ""))
  = StatusMethodNotAllowed.
Proof.
  apply (@get_after_header_checks_405 demo); vm_compute; reflexivity.
Defined.

(** C2, as stated, fails: a GET to the message path that carries no Accept
    header is answered with 406, and one that advertises both media types
    but has no Content-Type with 415. *)
Lemma get_without_headers_406 :
  Method (demo_request "GET" [] "") = MethodGet /\
  URL_Path (demo_request "GET" [] "") = basePath demo_server /\
  response_status (serve demo_server (demo_request "GET" [] ""))
  = StatusNotAcceptable /\
  response_status (serve demo_server (demo_request "GET" [("Accept", both_types)] ""))
  = StatusUnsupportedMediaType.
Proof. repeat split; vm_compute; reflexivity. Qed.

Lemma text_plain_415_witness :
  response_status
    (serve demo_server
       (demo_request "POST" [("Accept", both_types);
                             ("Content-Type", "text/plain")] ping_request))
  = StatusUnsupportedMediaType.
Proof. apply (@text_plain_415 demo); vm_compute; reflexivity. Defined.

(** C3, as stated, fails: a POST with Content-Type [text/plain] and no Accept
    header is answered with 406. *)
Lemma text_plain_without_accept_406 :
  Method (demo_request "POST" [("Content-Type", "text/plain")] ping_request)
  = MethodPost /\
  Header_Get (Header (demo_request "POST" [("Content-Type", "text/plain")]
                        ping_request)) "Content-Type" = "text/plain" /\
  response_status
    (serve demo_server
       (demo_request "POST" [("Content-Type", "text/plain")] ping_request))
  = StatusNotAcceptable.
Proof. repeat split; vm_compute; reflexivity. Qed.



(** A notification is accepted with an empty body. *)
Example notification_accepted :
  let w := serve demo_server
             (demo_request "POST" [("Accept", both_types);
                                   ("Content-Type", "application/json")]
                initialized_notification) in
  response_status w = StatusAccepted /\ response_body w = "".
Proof. split; vm_compute; reflexivity. Qed.

(** An answer the encoder rejects: the status stays 200 and the type
    [application/json], the body is the text of [http.Error], and the default
    logger prints the failure on standard error. *)
Example encode_failure :
  let r := demo_request "POST" [("Accept", both_types);
                                ("Content-Type", "application/json")] ping_request in
  let out := ServeHTTP (@NewStatelessHTTPServer demo 1%nat []) new_ResponseWriter r
               (mkConsole "" "") in
  response_status (fst out) = StatusOK /\
  response_header (fst out) "Content-Type" = "application/json" /\
  response_body (fst out) = "Internal Server Error" +:+ newline /\
  stderr (snd out) =
    "2025/01/01 00:00:00 Error writing response: json: unsupported value: NaN"
    +:+ newline.
Proof. repeat split; vm_compute; reflexivity. Qed.

Lemma NewStatelessHTTPServer_defaults_witness :
  let opts := [@WithStatelessHTTPContextFunc demo (fun ctx => ctx)] in
  server (@NewStatelessHTTPServer demo 7%nat opts) = 7%nat /\
  (Forall keeps_basePath opts ->
   basePath (@NewStatelessHTTPServer demo 7%nat opts) = "/") /\
  @NewStatelessHTTPServer demo 7%nat opts =
    fold_left (fun svr opt => opt svr) opts (@NewStatelessHTTPServer demo 7%nat []) /\
  forall opt, @NewStatelessHTTPServer demo 7%nat (opts ++ [opt]) =
              opt (@NewStatelessHTTPServer demo 7%nat opts).
Proof.
  apply (@NewStatelessHTTPServer_defaults demo 7%nat).
  constructor; [|constructor]. intros s. reflexivity.
Defined.

(** The repository's test: [NewStatelessHTTPServer(mcpServer,
    WithHTTPBasePath("/"))] holds the server and the base path ["/"]. *)
Example TestStatelessHTTP_can_instantiate :
  let httpServer := @NewStatelessHTTPServer demo 7%nat [WithHTTPBasePath "/"] in
  server httpServer = 7%nat /\ basePath httpServer = "/".
Proof. split; reflexivity. Qed.

(** With [WithHTTPBasePath] the base path is the one given, and other paths
    are not found. *)
Example other_path_404 :
  response_status
    (serve (@NewStatelessHTTPServer demo 0%nat [WithHTTPBasePath "/mcp"])
       (demo_request "POST" [("Accept", both_types);
                             ("Content-Type", "application/json")] ping_request))
  = StatusNotFound.
Proof. vm_compute. reflexivity. Qed.

(* ================================================================== *)
(** ** More on the stateless HTTP endpoint *)

Section StatelessHTTPReplies.
Context `{Externals}.

Lemma http_Error_fresh_summary e code :
  reply_summary (http_Error new_ResponseWriter e code) = (code, text_plain) /\
  response_header (http_Error new_ResponseWriter e code) "X-Content-Type-Options"
  = "nosniff" /\
  response_body (http_Error new_ResponseWriter e code) = e +:+ newline.
Proof. repeat split. Qed.

Lemma off_path s w r c :
  URL_Path r <> basePath s ->
  ServeHTTP s w r c = (http_NotFound w r, c).
Proof.
  intros Hp. unfold ServeHTTP. apply String.eqb_neq in Hp. rewrite Hp. reflexivity.
Qed.

(** X1: a request whose path is not the base path is answered with 404, the
    plain-text body of [http.NotFound], whatever its method, headers and
    body; nothing is logged. *)
Theorem other_path_not_found s r c :
  URL_Path r <> basePath s ->
  reply_summary (fst (ServeHTTP s new_ResponseWriter r c))
  = (StatusNotFound, text_plain) /\
  response_body (fst (ServeHTTP s new_ResponseWriter r c))
  = "404 page not found" +:+ newline /\
  snd (ServeHTTP s new_ResponseWriter r c) = c.
Proof. intros Hp. rewrite (off_path _ _ _ _ Hp). repeat split. Qed.

Lemma on_path s r c :
  URL_Path r = basePath s ->
  ServeHTTP s new_ResponseWriter r c = processMessage s new_ResponseWriter r c.
Proof. intros Hp. unfold ServeHTTP. rewrite Hp, String.eqb_refl. reflexivity. Qed.

(** X2: past the two header checks, every method other than POST (GET, PUT,
    DELETE, ...) is answered with 405 and the text "Method Not Allowed";
    the body is not read and nothing is logged. *)
Theorem other_methods_405 s r c :
  URL_Path r = basePath s ->
  accept_passes r = true ->
  Header_Get (Header r) "Content-Type" = "application/json" ->
  Method r <> MethodPost ->
  reply_summary (fst (ServeHTTP s new_ResponseWriter r c))
  = (StatusMethodNotAllowed, text_plain) /\
  response_body (fst (ServeHTTP s new_ResponseWriter r c))
  = "Method Not Allowed" +:+ newline /\
  snd (ServeHTTP s new_ResponseWriter r c) = c.
Proof.
  intros Hp Ha Hc Hm. rewrite (on_path _ _ _ Hp).
  rewrite (processMessage_validated _ _ _ _ Ha Hc).
  apply String.eqb_neq in Hm. rewrite Hm. simpl negb.
  destruct (String.eqb (Method r) MethodGet); repeat split.
Qed.

(** X3: the Content-Type check is an exact comparison: past the Accept check,
    any Content-Type value other than the very string [application/json]
    (one with a charset parameter included) is answered with 415. *)
Theorem content_type_exact_415 s r c :
  URL_Path r = basePath s ->
  accept_passes r = true ->
  Header_Get (Header r) "Content-Type" <> "application/json" ->
  reply_summary (fst (ServeHTTP s new_ResponseWriter r c))
  = (StatusUnsupportedMediaType, text_plain) /\
  response_body (fst (ServeHTTP s new_ResponseWriter r c))
  = "Unsupported Media Type: Content-Type must be application/json" +:+ newline /\
  snd (ServeHTTP s new_ResponseWriter r c) = c.
Proof.
  intros Hp Ha Hc. rewrite (on_path _ _ _ Hp).
  rewrite (processMessage_unsupported _ _ _ _ Ha Hc). repeat split.
Qed.

Lemma ok_written_summary bytes :
  reply_summary
    (Write bytes (WriteHeader StatusOK
                    (rw_Set "content-type" "application/json" new_ResponseWriter)))
  = (StatusOK, "application/json").
Proof.
  unfold reply_summary, response_status, response_header.
  destruct (Write_after_header bytes _ _ ok_header_sent) as [-> _]. reflexivity.
Qed.

Lemma ok_failed_summary e code :
  reply_summary
    (http_Error (WriteHeader StatusOK
                   (rw_Set "content-type" "application/json" new_ResponseWriter))
       e code)
  = (StatusOK, "application/json") /\
  response_body
    (http_Error (WriteHeader StatusOK
                   (rw_Set "content-type" "application/json" new_ResponseWriter))
       e code)
  = e +:+ newline.
Proof.
  unfold reply_summary, response_status, response_header, response_body.
  destruct (http_Error_late _ e code _ ok_header_sent) as [-> ->].
  split; reflexivity.
Qed.

Lemma bad_request_summary (s : StatelessHTTPServer) id code message :
  reply_summary (writeJSONRPCError s new_ResponseWriter id code message)
  = (StatusBadRequest, "application/json").
Proof.
  unfold writeJSONRPCError, Encode, reply_summary, response_status, response_header.
  destruct (json_Encode _) as [bytes|e]; unfold fst.
  - destruct (Write_after_header bytes _ _ bad_request_header_sent) as [-> _].
    reflexivity.
  - rewrite bad_request_header_sent. reflexivity.
Qed.

(** X4: whatever the request, the reply is one of seven pairs of status and
    Content-Type: 404, 405, 406 and 415 in plain text, 400 and 200 as
    [application/json], 202 with no Content-Type. No reply has status 500,
    the failed encoding of an answer included: its status line is out
    already. *)
Theorem reply_status_and_type s r c :
  In (reply_summary (fst (ServeHTTP s new_ResponseWriter r c)))
     [(StatusNotFound, text_plain);
      (StatusNotAcceptable, text_plain);
      (StatusUnsupportedMediaType, text_plain);
      (StatusMethodNotAllowed, text_plain);
      (StatusBadRequest, "application/json");
      (StatusOK, "application/json");
      (StatusAccepted, "")].
Proof.
  destruct (string_dec (URL_Path r) (basePath s)) as [Hp|Hp].
  2: { rewrite (off_path _ _ _ _ Hp). simpl. tauto. }
  rewrite (on_path _ _ _ Hp).
  destruct (accept_passes r) eqn:Ha.
  2: { rewrite (processMessage_not_acceptable _ _ _ _ Ha). simpl. tauto. }
  destruct (string_dec (Header_Get (Header r) "Content-Type") "application/json")
    as [Hc|Hc].
  2: { rewrite (processMessage_unsupported _ _ _ _ Ha Hc). simpl. tauto. }
  rewrite (processMessage_validated _ _ _ _ Ha Hc).
  destruct (String.eqb (Method r) MethodGet); [simpl; tauto|].
  destruct (String.eqb (Method r) MethodPost); [|simpl; tauto]. simpl negb. cbv iota.
  destruct (json_Decode (Body r)) as [raw|].
  - destruct (HandleMessage _ _ raw) as [resp|]; [|simpl; tauto].
    cbv zeta. unfold Encode. destruct (json_Encode resp) as [bytes|e]; unfold fst.
    + rewrite ok_written_summary. simpl. tauto.
    + destruct (ok_failed_summary "Internal Server Error" StatusInternalServerError)
        as [-> _]. simpl. tauto.
  - unfold fst. rewrite bad_request_summary. simpl. tauto.
Qed.

(** X5: when the encoder rejects the server's answer, the client still gets
    status 200 with Content-Type [application/json] (both were sent before
    encoding), the body is the text "Internal Server Error", and the error
    logger receives one line naming the error. *)
Theorem encode_failure_reply s r c rawMessage response e :
  URL_Path r = basePath s ->
  Method r = MethodPost ->
  accept_passes r = true ->
  Header_Get (Header r) "Content-Type" = "application/json" ->
  json_Decode (Body r) = Some rawMessage ->
  HandleMessage (server s) (Context_ r) rawMessage = Some response ->
  json_Encode response = err e ->
  reply_summary (fst (ServeHTTP s new_ResponseWriter r c))
  = (StatusOK, "application/json") /\
  response_body (fst (ServeHTTP s new_ResponseWriter r c))
  = "Internal Server Error" +:+ newline /\
  snd (ServeHTTP s new_ResponseWriter r c)
  = Logger_Printf (errLogger s) ("Error writing response: " +:+ e) c.
Proof.
  intros Hp Hm Ha Hc Hd Hh He. rewrite (on_path _ _ _ Hp).
  rewrite (processMessage_validated _ _ _ _ Ha Hc).
  destruct (method_post_is_not_get _ Hm) as [-> ->]. simpl negb. cbv iota.
  rewrite Hd, Hh. cbv zeta. unfold Encode. rewrite He. unfold fst, snd.
  destruct (ok_failed_summary "Internal Server Error" StatusInternalServerError)
    as [-> ->].
  repeat split.
Qed.

Lemma console_after s w r c :
  snd (ServeHTTP s w r c) = c \/
  exists rawMessage response e,
    json_Decode (Body r) = Some rawMessage /\
    HandleMessage (server s) (Context_ r) rawMessage = Some response /\
    json_Encode response = err e /\
    snd (ServeHTTP s w r c)
    = Logger_Printf (errLogger s) ("Error writing response: " +:+ e) c.
Proof.
  unfold ServeHTTP, processMessage.
  destruct (String.eqb (URL_Path r) (basePath s)); [|left; reflexivity].
  destruct (negb _ && negb _); [left; reflexivity|].
  destruct (negb (String.eqb _ "application/json")); [left; reflexivity|].
  destruct (String.eqb (Method r) MethodGet); [left; reflexivity|].
  destruct (negb (String.eqb (Method r) MethodPost)); [left; reflexivity|].
  destruct (json_Decode (Body r)) as [raw|]; [|left; reflexivity].
  destruct (HandleMessage _ _ raw) as [resp|] eqn:Hh; [|left; reflexivity].
  cbv zeta. unfold Encode. destruct (json_Encode resp) as [bytes|e] eqn:He.
  - left. reflexivity.
  - right. exists raw, resp, e. repeat split; assumption.
Qed.

(** X6: on a fresh response, the error logger is written to only for a POST
    to the base path that passed both header checks, whose body decoded and
    which [HandleMessage] answered, and then with the one line "Error writing
    response: ..."; a request that is rejected, a body that does not decode
    and a notification never reach the logger. *)
Theorem console_only_for_answered_post s r c :
  snd (ServeHTTP s new_ResponseWriter r c) = c \/
  exists rawMessage response e,
    URL_Path r = basePath s /\
    Method r = MethodPost /\
    accept_passes r = true /\
    Header_Get (Header r) "Content-Type" = "application/json" /\
    json_Decode (Body r) = Some rawMessage /\
    HandleMessage (server s) (Context_ r) rawMessage = Some response /\
    snd (ServeHTTP s new_ResponseWriter r c)
    = Logger_Printf (errLogger s) ("Error writing response: " +:+ e) c.
Proof.
  destruct (string_dec (URL_Path r) (basePath s)) as [Hp|Hp].
  2: { left. rewrite (off_path _ _ _ _ Hp). reflexivity. }
  rewrite (on_path _ _ _ Hp).
  destruct (accept_passes r) eqn:Ha.
  2: { left. rewrite (processMessage_not_acceptable _ _ _ _ Ha). reflexivity. }
  destruct (string_dec (Header_Get (Header r) "Content-Type") "application/json")
    as [Hc|Hc].
  2: { left. rewrite (processMessage_unsupported _ _ _ _ Ha Hc). reflexivity. }
  rewrite (processMessage_validated _ _ _ _ Ha Hc).
  destruct (String.eqb (Method r) MethodGet); [left; reflexivity|].
  destruct (String.eqb_spec (Method r) MethodPost) as [Hm|Hm];
    [|left; reflexivity]. simpl negb. cbv iota.
  destruct (json_Decode (Body r)) as [raw|]; [|left; reflexivity].
  destruct (HandleMessage _ _ raw) as [resp|] eqn:Hh; [|left; reflexivity].
  cbv zeta. unfold Encode. destruct (json_Encode resp) as [bytes|e].
  - left. reflexivity.
  - right. exists raw, resp, e. repeat split; assumption.
Qed.

(** X7: the context function is never called: a server on which
    [SetContextFunc] or [WithStatelessHTTPContextFunc] has put one answers
    every request exactly as the server without it, and [HandleMessage] gets
    the request's own context. *)
Theorem context_func_never_called s fn w r c :
  ServeHTTP (SetContextFunc fn s) w r c = ServeHTTP s w r c /\
  ServeHTTP (WithStatelessHTTPContextFunc fn s) w r c = ServeHTTP s w r c.
Proof. split; reflexivity. Qed.

(** X8: the error logger decides nothing but the console: with a logger on
    [io.Discard] set by [SetErrorLogger] no request writes to the console,
    and the replies are those of the server before the call. *)
Theorem discard_logger_silent s logger w r c :
  log_out logger = io_Discard ->
  snd (ServeHTTP (SetErrorLogger logger s) w r c) = c /\
  fst (ServeHTTP (SetErrorLogger logger s) w r c) = fst (ServeHTTP s w r c).
Proof.
  intros Hl. split.
  - destruct (console_after (SetErrorLogger logger s) w r c)
      as [E | (raw & resp & e & _ & _ & _ & E)]; [exact E|].
    rewrite E. unfold Logger_Printf. simpl. rewrite Hl. reflexivity.
  - unfold ServeHTTP, processMessage. simpl.
    repeat match goal with
           | |- context [if ?b then _ else _] => destruct b; try reflexivity
           | |- context [match ?x with _ => _ end] => destruct x; try reflexivity
           end.
Qed.

End StatelessHTTPReplies.

(* ================================================================== *)
(** ** [strings.Contains] is the substring test *)

Lemma strings_HasPrefix_spec s prefix :
  strings_HasPrefix s prefix = true <-> exists post, s = prefix +:+ post.
Proof.
  revert s. induction prefix as [|p prefix IH]; intros s; simpl.
  - split; [intros _; exists s; reflexivity | intros _; destruct s; reflexivity].
  - destruct s as [|ch s]; simpl.
    + split; [discriminate | intros [post [=]]].
    + rewrite andb_true_iff, Ascii.eqb_eq, IH. split.
      * intros [-> [post ->]]. exists post. reflexivity.
      * intros [post [= -> ->]]. split; [reflexivity | exists post; reflexivity].
Qed.

Lemma strings_Contains_spec s substr :
  strings_Contains s substr = true <->
  exists pre post, s = pre +:+ substr +:+ post.
Proof.
  induction s as [|ch s IH]; cbn [strings_Contains].
  - rewrite orb_false_r, strings_HasPrefix_spec. split.
    + intros [post E]. exists "", post. exact E.
    + intros [pre [post E]]. destruct pre; [exists post; exact E|discriminate].
  - rewrite orb_true_iff, strings_HasPrefix_spec, IH. split.
    + intros [[post E] | [pre [post E]]].
      * exists "", post. exact E.
      * exists (String ch pre), post. simpl. now rewrite E.
    + intros [pre [post E]]. destruct pre as [|ch' pre].
      * left. exists post. exact E.
      * right. injection E as -> E. exists pre, post. exact E.
Qed.

Section StatelessHTTPChecks.
Context `{Externals}.

Lemma passed_accept_summary s r c :
  accept_passes r = true ->
  In (reply_summary (fst (processMessage s new_ResponseWriter r c)))
     [(StatusUnsupportedMediaType, text_plain);
      (StatusMethodNotAllowed, text_plain);
      (StatusBadRequest, "application/json");
      (StatusOK, "application/json");
      (StatusAccepted, "")].
Proof.
  intros Ha.
  destruct (string_dec (Header_Get (Header r) "Content-Type") "application/json")
    as [Hc|Hc].
  2: { rewrite (processMessage_unsupported _ _ _ _ Ha Hc). simpl. tauto. }
  rewrite (processMessage_validated _ _ _ _ Ha Hc).
  destruct (String.eqb (Method r) MethodGet); [simpl; tauto|].
  destruct (String.eqb (Method r) MethodPost); [|simpl; tauto]. simpl negb. cbv iota.
  destruct (json_Decode (Body r)) as [raw|].
  - destruct (HandleMessage _ _ raw) as [resp|]; [|simpl; tauto].
    cbv zeta. unfold Encode. destruct (json_Encode resp) as [bytes|e]; unfold fst.
    + rewrite ok_written_summary. simpl. tauto.
    + destruct (ok_failed_summary "Internal Server Error" StatusInternalServerError)
        as [-> _]. simpl. tauto.
  - unfold fst. rewrite bad_request_summary. simpl. tauto.
Qed.

Lemma not_acceptable_iff s r c :
  URL_Path r = basePath s ->
  response_status (fst (ServeHTTP s new_ResponseWriter r c)) = StatusNotAcceptable
  <-> accept_passes r = false.
Proof.
  intros Hp. rewrite (on_path _ _ _ Hp). split.
  - intros Hs. destruct (accept_passes r) eqn:Ha; [exfalso | reflexivity].
    pose proof (passed_accept_summary s r c Ha) as Hin.
    unfold reply_summary in Hin. rewrite Hs in Hin. simpl in Hin.
    repeat destruct Hin as [Hin|Hin]; try discriminate; exact Hin.
  - intros Ha. rewrite (processMessage_not_acceptable _ _ _ _ Ha). reflexivity.
Qed.

(** X9: the Accept check is a substring test on the first Accept value: a
    request to the base path is answered with 406 exactly when neither
    [application/json] nor [text/event-stream] occurs anywhere in that value
    (so a value such as [application/json;q=0] passes). *)
Theorem accept_check_is_substring_test s r c :
  URL_Path r = basePath s ->
  response_status (fst (ServeHTTP s new_ResponseWriter r c)) = StatusNotAcceptable
  <->
  ~ exists pre post,
      Header_Get (Header r) "Accept" = pre +:+ "application/json" +:+ post \/
      Header_Get (Header r) "Accept" = pre +:+ "text/event-stream" +:+ post.
Proof.
  intros Hp. rewrite (not_acceptable_iff _ _ _ Hp). unfold accept_passes.
  rewrite orb_false_iff, <- !not_true_iff_false, !strings_Contains_spec.
  split.
  - intros [Hj Hs'] (pre & post & [E|E]); [apply Hj | apply Hs']; eauto.
  - intros Hn. split; intros (pre & post & E); apply Hn; exists pre, post; auto.
Qed.

(** X10: the body is read only for a POST to the base path that passed both
    header checks: any other request gets the same reply, and leaves the same
    console, whatever body it carries. *)
Theorem body_read_only_for_post s w r c body :
  URL_Path r <> basePath s \/ accept_passes r = false \/
  Header_Get (Header r) "Content-Type" <> "application/json" \/
  Method r <> MethodPost ->
  ServeHTTP s w (with_body r body) c = ServeHTTP s w r c.
Proof.
  unfold ServeHTTP, processMessage, accept_passes. simpl.
  destruct (String.eqb (URL_Path r) (basePath s)) eqn:Ep; [|reflexivity].
  destruct (strings_Contains _ "application/json") eqn:Ej,
           (strings_Contains _ "text/event-stream") eqn:Es; simpl;
    try reflexivity;
    (destruct (String.eqb (Header_Get (Header r) "Content-Type") "application/json")
       eqn:Ec; simpl; [|reflexivity]);
    (destruct (String.eqb (Method r) MethodGet); [reflexivity|]);
    (destruct (String.eqb (Method r) MethodPost) eqn:Em; simpl; [|reflexivity]);
    apply String.eqb_eq in Ep, Ec, Em;
    intros [Hc|[Hc|[Hc|Hc]]]; congruence.
Qed.

(** X11: the last [WithHTTPBasePath] among the options decides the base path,
    whatever the options before it did. *)
Theorem last_base_path_wins (server0 : MCPServer) opts1 p opts2 :
  Forall keeps_basePath opts2 ->
  basePath (NewStatelessHTTPServer server0 (opts1 ++ WithHTTPBasePath p :: opts2)) = p.
Proof.
  intros Hk. unfold NewStatelessHTTPServer. cbv zeta.
  rewrite apply_options_app. simpl.
  rewrite (apply_options_keeps basePath opts2 _ Hk). reflexivity.
Qed.

(** A body the decoder reads a value from is never answered with the parse
    error: the message goes to the server, and the reply is 200 or 202. *)
Lemma decoded_body_is_handled s r rawMessage :
  URL_Path r = basePath s ->
  Method r = MethodPost ->
  accept_passes r = true ->
  Header_Get (Header r) "Content-Type" = "application/json" ->
  json_Decode (Body r) = Some rawMessage ->
  response_status (serve s r) = StatusOK \/
  response_status (serve s r) = StatusAccepted.
Proof.
  intros Hp Hm Ha Hc Hd. rewrite (serve_on_path _ _ Hp).
  rewrite (processMessage_validated _ _ _ _ Ha Hc).
  destruct (method_post_is_not_get _ Hm) as [-> ->]. simpl negb. cbv iota.
  rewrite Hd. destruct (HandleMessage _ _ rawMessage) as [resp|]; [|right; reflexivity].
  left. cbv zeta. unfold Encode, response_status.
  destruct (json_Encode resp) as [bytes|e]; unfold fst.
  - destruct (Write_after_header bytes _ _ ok_header_sent) as [-> _]. reflexivity.
  - destruct (http_Error_late _ "Internal Server Error" StatusInternalServerError
                _ ok_header_sent) as [-> _]. reflexivity.
Qed.

End StatelessHTTPChecks.

(* ================================================================== *)
(** ** Transport selection *)

(** X13: the decision table of [SelectTransport], complete: which
    requirements give each of the four answers. In particular a requirement
    that needs the network but not several clients falls through to
    ["stdio"], and the [Complexity] field plays no part. *)
Theorem SelectTransport_table (req : TransportRequirements) :
  (SelectTransport req = "inprocess" <->
   NetworkRequired req = false /\ Performance req = "high") /\
  (SelectTransport req = "sse" <->
   RealTime req = true /\ MultiClient req = true /\
   (NetworkRequired req = true \/ Performance req <> "high")) /\
  (SelectTransport req = "streamablehttp" <->
   NetworkRequired req = true /\ MultiClient req = true /\ RealTime req = false) /\
  (SelectTransport req = "stdio" <->
   (MultiClient req = false /\
    (NetworkRequired req = true \/ Performance req <> "high")) \/
   (MultiClient req = true /\ RealTime req = false /\
    NetworkRequired req = false /\ Performance req <> "high")).
Proof.
  unfold SelectTransport.
  destruct (String.eqb_spec (Performance req) "high") as [Hp|Hp];
    destruct (NetworkRequired req), (MultiClient req), (RealTime req); simpl;
    repeat split; intros; try discriminate; try tauto;
    repeat match goal with
           | H : _ /\ _ |- _ => destruct H
           | H : _ \/ _ |- _ => destruct H
           end;
    try discriminate; try contradiction; auto.
Qed.

(* ================================================================== *)
(** ** The client factory *)

Module ClientFactoryFacts.
Import ClientFactory.

(** X14: on a factory nothing was configured on, [CreateClient] returns an
    error for every name: "<name> config not set" for the three transports
    it knows, "unknown transport: <name>" for any other; and an unknown name
    gets that error whatever is configured. *)
Theorem CreateClient_without_config (configs : gmap string config) (transport : string) :
  CreateClient NewClientFactory transport
  = err (if known transport then transport +:+ " config not set"
         else "unknown transport: " +:+ transport) /\
  (known transport = false ->
   CreateClient configs transport = err ("unknown transport: " +:+ transport)).
Proof.
  unfold CreateClient, known, NewClientFactory. split.
  - destruct (String.eqb_spec transport "stdio") as [->|_]; [reflexivity|].
    destruct (String.eqb_spec transport "streamablehttp") as [->|_]; [reflexivity|].
    destruct (String.eqb_spec transport "sse") as [->|_]; reflexivity.
  - destruct (String.eqb transport "stdio"); [discriminate|].
    destruct (String.eqb transport "streamablehttp"); [discriminate|].
    destruct (String.eqb transport "sse"); [discriminate|]. reflexivity.
Qed.

Lemma CreateClient_reads_one_key (configs configs' : gmap string config) transport :
  configs !! transport = configs' !! transport ->
  CreateClient configs transport = CreateClient configs' transport.
Proof.
  intros E. unfold CreateClient.
  destruct (String.eqb_spec transport "stdio") as [->|_]; [now rewrite E|].
  destruct (String.eqb_spec transport "streamablehttp") as [->|_]; [now rewrite E|].
  destruct (String.eqb_spec transport "sse") as [->|_]; [now rewrite E|].
  reflexivity.
Qed.

(** X15: what a setter stores is what [CreateClient] builds from: the stdio
    command and arguments, or the base URL with one headers option when the
    header map is not empty and none when it is; the latest call of a setter
    wins, and a setter leaves the other transports as they were. *)
Theorem set_then_create (configs : gmap string config) :
  (forall command args,
     CreateClient (SetStdioConfig command args configs) "stdio"
     = ok (NewStdioClientWithOptions command args)) /\
  (forall baseURL headers,
     CreateClient (SetStreamableHTTPConfig baseURL headers configs) "streamablehttp"
     = ok (NewStreamableHttpClient baseURL
             (if decide (headers = ∅) then [] else [WithHTTPHeaders headers]))) /\
  (forall baseURL headers,
     CreateClient (SetSSEConfig baseURL headers configs) "sse"
     = ok (NewSSEMCPClient baseURL
             (if decide (headers = ∅) then [] else [WithHeaders headers]))) /\
  (forall command args baseURL headers transport,
     (transport <> "stdio" ->
      CreateClient (SetStdioConfig command args configs) transport
      = CreateClient configs transport) /\
     (transport <> "streamablehttp" ->
      CreateClient (SetStreamableHTTPConfig baseURL headers configs) transport
      = CreateClient configs transport) /\
     (transport <> "sse" ->
      CreateClient (SetSSEConfig baseURL headers configs) transport
      = CreateClient configs transport)).
Proof.
  assert (Hsize : forall headers : gmap string string,
            (0 <? size headers)%nat = if decide (headers = ∅) then false else true).
  { intros headers. destruct (decide (headers = ∅)) as [->|Hne].
    - reflexivity.
    - apply Nat.ltb_lt. apply map_size_non_empty_iff in Hne. lia. }
  split; [|split; [|split]].
  - intros. unfold CreateClient, SetStdioConfig. simpl.
    rewrite lookup_insert_eq. reflexivity.
  - intros. unfold CreateClient, SetStreamableHTTPConfig. simpl.
    rewrite lookup_insert_eq, Hsize. cbv zeta. destruct (decide _); reflexivity.
  - intros. unfold CreateClient, SetSSEConfig. simpl.
    rewrite lookup_insert_eq, Hsize. cbv zeta. destruct (decide _); reflexivity.
  - intros. repeat split; intros Hne; apply CreateClient_reads_one_key;
      unfold SetStdioConfig, SetStreamableHTTPConfig, SetSSEConfig;
      rewrite lookup_insert_ne by congruence; reflexivity.
Qed.

End ClientFactoryFacts.

(* ================================================================== *)
(** ** Error classification *)

Lemma errors_Is_wrapped prefix e target :
  errors_Is (Errorf_w prefix e) target = errors_Is e target.
Proof. simpl. apply orb_false_r. Qed.

(** X16: [ManagedStdioClient.CallTool] asks for a restart exactly when a
    client is set and the call failed with a process error; the error it
    then returns wraps the client's, so every [errors.Is] test, and
    [isProcessError], still recognise it. Any other outcome is passed on
    untouched and leaves [restartChan] alone. *)
Theorem stdio_CallTool_classifies client_set result callErr restartChan :
  match callErr with
  | Some e =>
      if client_set && isProcessError e then
        exists e',
          ManagedStdioClient_CallTool client_set result callErr restartChan
          = (None, Some e', try_send restartChan) /\
          isProcessError e' = true /\
          (forall target, errors_Is e' target = errors_Is e target) /\
          Error e' = "process error, restarting: " +:+ Error e
      else
        snd (ManagedStdioClient_CallTool client_set result callErr restartChan)
        = restartChan /\
        (client_set = true ->
         ManagedStdioClient_CallTool client_set result callErr restartChan
         = (result, callErr, restartChan))
  | None =>
      snd (ManagedStdioClient_CallTool client_set result callErr restartChan)
      = restartChan
  end.
Proof.
  unfold ManagedStdioClient_CallTool.
  destruct callErr as [e|], client_set; simpl; try (split; [reflexivity|]);
    try reflexivity; try discriminate.
  - destruct (isProcessError e) eqn:Ep.
    + exists (Errorf_w "process error, restarting: " e).
      split; [reflexivity|]. split; [|split; [|reflexivity]].
      * unfold isProcessError in *. now rewrite !errors_Is_wrapped.
      * intros target. apply errors_Is_wrapped.
    + split; [reflexivity | intros _; reflexivity].
Qed.

(** X17: [ResilientSSEClient.CallTool] asks for a reconnection exactly when a
    client is set and the call failed with a connection error; the error it
    then returns wraps the client's, so [isConnectionError] and every
    [errors.Is] test still recognise it. Any other outcome (an error that
    holds neither [ErrConnectionLost] nor [ErrConnectionFailed], such as an
    authorization error, included) is passed on untouched and leaves
    [reconnectCh] alone. *)
Theorem sse_CallTool_classifies client_set result callErr reconnectCh :
  match callErr with
  | Some e =>
      if client_set && isConnectionError e then
        exists e',
          ResilientSSEClient_CallTool client_set result callErr reconnectCh
          = (None, Some e', try_send reconnectCh) /\
          isConnectionError e' = true /\
          (forall target, errors_Is e' target = errors_Is e target) /\
          Error e' = "connection error: " +:+ Error e
      else
        snd (ResilientSSEClient_CallTool client_set result callErr reconnectCh)
        = reconnectCh /\
        (client_set = true ->
         ResilientSSEClient_CallTool client_set result callErr reconnectCh
         = (result, callErr, reconnectCh))
  | None =>
      snd (ResilientSSEClient_CallTool client_set result callErr reconnectCh)
      = reconnectCh
  end.
Proof.
  unfold ResilientSSEClient_CallTool.
  destruct callErr as [e|], client_set; simpl; try (split; [reflexivity|]);
    try reflexivity; try discriminate.
  - destruct (isConnectionError e) eqn:Ep.
    + exists (Errorf_w "connection error: " e).
      split; [reflexivity|]. split; [|split; [|reflexivity]].
      * unfold isConnectionError in *. now rewrite !errors_Is_wrapped.
      * intros target. apply errors_Is_wrapped.
    + split; [reflexivity | intros _; reflexivity].
Qed.

(** An authorization error, bare or wrapped, asks for no reconnection. *)
Example unauthorized_does_not_reconnect :
  snd (ResilientSSEClient_CallTool true None
         (Some (Errorf_w "call failed: " ErrUnauthorized)) (make_chan 1))
  = make_chan 1.
Proof. reflexivity. Qed.

Lemma handleStdioErrors_on_error result e restartErr :
  (In Restart (handleStdioErrors result (Some e) restartErr) <->
   isProcessError e = true) /\
  (In Kill (handleStdioErrors result (Some e) restartErr) <->
   errors_Is e "ErrProcessTimeout" = true /\ errors_Is e "ErrProcessExited" = false) /\
  (In Kill (handleStdioErrors result (Some e) restartErr) ->
   exists line rest,
     handleStdioErrors result (Some e) restartErr
     = Println line :: Kill :: Restart :: rest).
Proof.
  unfold handleStdioErrors, isProcessError, restart_and_report.
  destruct (errors_Is e "ErrProcessExited"), (errors_Is e "ErrProcessTimeout"),
           (errors_Is e "ErrBrokenPipe"), restartErr; simpl;
    (split; [|split]);
    try (split; intros Hx; intuition (discriminate || congruence));
    try (intros Hx; intuition (discriminate || eauto)).
Qed.

(** X18: [handleStdioErrors] restarts the client exactly when the call's
    error is a process error in the sense of [isProcessError], kills it only
    for a timeout that is not also a process exit, always kills before it
    restarts, and touches the client in no other case. *)
Theorem handleStdioErrors_restarts_iff result callErr restartErr :
  (In Restart (handleStdioErrors result callErr restartErr) <->
   exists e, callErr = Some e /\ isProcessError e = true) /\
  (In Kill (handleStdioErrors result callErr restartErr) <->
   exists e, callErr = Some e /\ errors_Is e "ErrProcessTimeout" = true /\
             errors_Is e "ErrProcessExited" = false) /\
  (In Kill (handleStdioErrors result callErr restartErr) ->
   exists line rest,
     handleStdioErrors result callErr restartErr = Println line :: Kill :: Restart :: rest).
Proof.
  destruct callErr as [e|].
  - destruct (handleStdioErrors_on_error result e restartErr) as (HR & HK & HO).
    split; [|split; [|exact HO]].
    + rewrite HR. split; [eauto | intros (e' & [= <-] & He); exact He].
    + rewrite HK. split; [eauto | intros (e' & [= <-] & He); exact He].
  - simpl. split; [|split].
    + split; [intros [Hx|[]]; discriminate | intros (e & Hx & _); discriminate].
    + split; [intros [Hx|[]]; discriminate | intros (e & Hx & _); discriminate].
    + intros [Hx|[]]; discriminate.
Qed.

(* ================================================================== *)
(** ** The connection pool *)

Module StreamableHTTPClientPoolFacts.
Import StreamableHTTPClientPool.

Section OnAPlatform.
Context `{Platform}.

Lemma populate_spec k : forall p,
  (length (clients p) + k <= maxSize p)%nat ->
  populate k p = Some {| clients := clients p ++ seq (made p) k;
                         maxSize := maxSize p;
                         made := made p + k;
                         closed := closed p |}.
Proof.
  induction k as [|k IH]; intros p Hroom; simpl.
  - rewrite app_nil_r, Nat.add_0_r. destruct p; reflexivity.
  - unfold send. simpl.
    destruct (Nat.ltb_spec (length (clients p)) (maxSize p)) as [_|Hfull]; [|lia].
    rewrite IH by (simpl; rewrite length_app; simpl; lia). simpl.
    rewrite <- app_assoc. simpl. do 2 f_equal. lia.
Qed.

Lemma constructor_value (maxSize0 : Z) :
  NewStreamableHTTPClientPool maxSize0 =
  if (maxSize0 <? 0)%Z || (max_chan_cap <? maxSize0)%Z then None
  else Some {| clients := seq 0 (Z.to_nat maxSize0);
               maxSize := Z.to_nat maxSize0;
               made := Z.to_nat maxSize0;
               closed := [] |}.
Proof.
  unfold NewStreamableHTTPClientPool.
  destruct ((maxSize0 <? 0)%Z || (max_chan_cap <? maxSize0)%Z); [reflexivity|].
  rewrite populate_spec by (simpl; lia). reflexivity.
Qed.

(** X19: the constructor returns exactly for the sizes [make] accepts, from 0
    up to the platform's largest channel capacity: the pool then holds
    [maxSize] clients, made in order and none closed, and the sends of the
    loop never find the channel full. With a negative size, or one beyond
    that capacity, it does not return ([make] panics). *)
Theorem constructor_fills_pool (maxSize0 : Z) :
  NewStreamableHTTPClientPool maxSize0 =
  if (maxSize0 <? 0)%Z || (max_chan_cap <? maxSize0)%Z then None
  else Some {| clients := seq 0 (Z.to_nat maxSize0);
               maxSize := Z.to_nat maxSize0;
               made := Z.to_nat maxSize0;
               closed := [] |}.
Proof. exact (constructor_value maxSize0). Qed.

Lemma gets_state (n j : nat) :
  Nat.iter j (fun p => snd (Get p))
    {| clients := seq 0 n; maxSize := n; made := n; closed := [] |}
  = {| clients := seq j (n - j); maxSize := n; made := Nat.max n j; closed := [] |}.
Proof.
  induction j as [|j IH]; simpl.
  - rewrite Nat.sub_0_r, Nat.max_0_r. reflexivity.
  - rewrite IH. unfold Get. simpl.
    destruct (n - j)%nat as [|d] eqn:Ed; simpl.
    + replace (n - S j)%nat with 0%nat by lia. simpl. f_equal. lia.
    + replace (n - S j)%nat with d by lia. f_equal. lia.
Qed.

(** X20: with no [Put] in between, the k-th [Get] after the constructor
    (counting from 0) returns client number k: first the clients the
    constructor pooled, oldest first, then, the pool being empty, new ones;
    no [Get] waits. *)
Theorem gets_in_order (maxSize0 : Z) (p0 : pool) (k : nat) :
  NewStreamableHTTPClientPool maxSize0 = Some p0 ->
  fst (Get (Nat.iter k (fun p => snd (Get p)) p0)) = k.
Proof.
  rewrite constructor_value.
  destruct ((maxSize0 <? 0)%Z || (max_chan_cap <? maxSize0)%Z); [discriminate|].
  intros [= <-]. rewrite gets_state. unfold Get. simpl.
  destruct (Z.to_nat maxSize0 - k)%nat eqn:Ed; simpl; lia.
Qed.

(** X21: a call of [CallTool] with no other call under way: a pooled client
    serves it and goes to the back of the pool; on an empty pool a new client
    serves it and is pooled; with [maxSize] 0 every call makes a client and
    closes it. *)
Theorem CallTool_alone (p : pool) :
  (length (clients p) <= maxSize p)%nat ->
  CallTool p =
  match clients p with
  | c :: rest =>
      (c, {| clients := rest ++ [c]; maxSize := maxSize p; made := made p;
             closed := closed p |})
  | [] =>
      if (0 <? maxSize p)%nat
      then (made p, {| clients := [made p]; maxSize := maxSize p;
                       made := S (made p); closed := closed p |})
      else (made p, {| clients := []; maxSize := maxSize p;
                       made := S (made p); closed := made p :: closed p |})
  end.
Proof.
  intros Hb. unfold CallTool, Get, Put, factory.
  destruct (clients p) as [|c rest] eqn:Ec; simpl in *.
  - destruct (0 <? maxSize p)%nat; reflexivity.
  - destruct (Nat.ltb_spec (length rest) (maxSize p)); [reflexivity | lia].
Qed.

Lemma held_split (c : nat) (l : list nat) :
  NoDup l -> c ∈ l -> l ≡ₚ c :: filter (fun x => x <> c) l.
Proof.
  induction 1 as [|x l Hx Hnd IH]; intros Hin.
  - inversion Hin.
  - destruct (decide (x = c)) as [->|Hne].
    + rewrite filter_cons_False by (intros Hc; apply Hc; reflexivity).
      constructor. clear IH Hin.
      induction l as [|y l IHl]; [reflexivity|].
      apply NoDup_cons in Hnd as [Hy Hnd]. apply not_elem_of_cons in Hx as [Hcy Hx].
      rewrite filter_cons_True by congruence. constructor. apply IHl; assumption.
    + rewrite filter_cons_True by assumption.
      apply elem_of_cons in Hin as [->|Hin]; [contradiction|].
      rewrite (IH Hin) at 1. apply Permutation_swap.
Qed.

Lemma pool_invariant_step s e s' : invariant s -> step s e = Some s' -> invariant s'.
Proof.
  unfold invariant, everyone. intros (Hlen & Hnd & Hacc) Hstep.
  destruct e as [|c]; simpl in Hstep.
  - unfold Get, factory in Hstep.
    destruct (clients (the_pool s)) as [|c rest] eqn:Ec;
      injection Hstep as <-; simpl in *.
    + split; [lia|]. split.
      * apply NoDup_cons. split; [|exact Hnd].
        intros Hin. apply Hacc in Hin. lia.
      * intros c'. rewrite elem_of_cons, Hacc. lia.
    + assert (Hp : rest ++ (c :: held s) ++ closed (the_pool s)
                   ≡ₚ c :: rest ++ held s ++ closed (the_pool s))
        by (symmetry; apply Permutation_middle).
      split; [lia|]. split.
      * rewrite Hp. exact Hnd.
      * intros c'. rewrite Hp. apply Hacc.
  - destruct (bool_decide (c ∈ held s)) eqn:Eh; [|discriminate].
    apply bool_decide_eq_true in Eh. injection Hstep as <-.
    assert (Hh : NoDup (held s)).
    { apply NoDup_app in Hnd as (_ & _ & Hnd). now apply NoDup_app in Hnd as (Hnd & _). }
    pose proof (held_split c _ Hh Eh) as Hs.
    unfold Put. destruct (Nat.ltb_spec (length (clients (the_pool s))) (maxSize (the_pool s)))
      as [Hroom|Hfull]; simpl.
    + assert (Hp : (clients (the_pool s) ++ [c])
                     ++ filter (fun x => x <> c) (held s) ++ closed (the_pool s)
                   ≡ₚ clients (the_pool s) ++ held s ++ closed (the_pool s)).
      { rewrite Hs at 2. rewrite <- app_assoc. reflexivity. }
      split; [rewrite length_app; simpl; lia|]. split.
      * rewrite Hp. exact Hnd.
      * intros c'. rewrite Hp. apply Hacc.
    + assert (Hp : clients (the_pool s)
                     ++ filter (fun x => x <> c) (held s) ++ c :: closed (the_pool s)
                   ≡ₚ clients (the_pool s) ++ held s ++ closed (the_pool s)).
      { rewrite Hs at 2. apply Permutation_app_head. simpl.
        symmetry. apply Permutation_middle. }
      split; [lia|]. split.
      * rewrite Hp. exact Hnd.
      * intros c'. rewrite Hp. apply Hacc.
Qed.

Lemma pool_invariant_run evs : forall s s', invariant s -> run s evs = Some s' -> invariant s'.
Proof.
  induction evs as [|e evs IH]; simpl; intros s s' Hi Hr.
  - injection Hr as <-. assumption.
  - destruct (step s e) as [s1|] eqn:Es; [|discriminate].
    eapply IH; [|eassumption]. eapply pool_invariant_step; eassumption.
Qed.

Lemma pool_invariant_fresh (n : nat) :
  invariant {| the_pool := {| clients := seq 0 n; maxSize := n; made := n; closed := [] |};
               held := [] |}.
Proof.
  unfold invariant, everyone. simpl. rewrite app_nil_r, length_seq.
  split; [lia|]. split; [apply NoDup_seq|].
  intros c. rewrite elem_of_seq. lia.
Qed.

(** X22: however calls of [CallTool] interleave, the pool never holds more
    than [maxSize] clients, and every client made so far is in exactly one
    place: in the pool, held by a call under way, or closed. *)
Theorem pool_accounting (maxSize0 : Z) (p0 : pool) (evs : list event) (s : state) :
  NewStreamableHTTPClientPool maxSize0 = Some p0 ->
  run {| the_pool := p0; held := [] |} evs = Some s ->
  (length (clients (the_pool s)) <= maxSize (the_pool s))%nat /\
  NoDup (clients (the_pool s) ++ held s ++ closed (the_pool s)) /\
  (forall c, c ∈ clients (the_pool s) ++ held s ++ closed (the_pool s)
             <-> (c < made (the_pool s))%nat).
Proof.
  rewrite constructor_value.
  destruct ((maxSize0 <? 0)%Z || (max_chan_cap <? maxSize0)%Z); [discriminate|].
  intros [= <-] Hr.
  exact (pool_invariant_run evs _ _ (pool_invariant_fresh _) Hr).
Qed.

(** X23: the client a call gets from the pool is never a closed one, nor one
    that another call still holds. *)
Theorem acquire_is_safe (maxSize0 : Z) (p0 : pool) (evs : list event) (s s' : state) :
  NewStreamableHTTPClientPool maxSize0 = Some p0 ->
  run {| the_pool := p0; held := [] |} evs = Some s ->
  step s Acquire = Some s' ->
  exists c, held s' = c :: held s /\ (c ∉ held s) /\ (c ∉ closed (the_pool s')).
Proof.
  intros Hn Hr Hs.
  assert (Hi : invariant s).
  { revert Hn Hr. rewrite constructor_value.
    destruct ((maxSize0 <? 0)%Z || (max_chan_cap <? maxSize0)%Z); [discriminate|].
    intros [= <-] Hr.
    exact (pool_invariant_run evs _ _ (pool_invariant_fresh _) Hr). }
  pose proof (pool_invariant_step _ _ _ Hi Hs) as (_ & Hnd & _).
  unfold everyone in Hnd. simpl in Hs.
  destruct (Get (the_pool s)) as [c p] eqn:Eg. injection Hs as <-. simpl in *.
  exists c. split; [reflexivity|].
  apply NoDup_app in Hnd as (_ & _ & Hnd). simpl in Hnd.
  apply NoDup_cons in Hnd as [Hc _]. rewrite elem_of_app in Hc. tauto.
Qed.

End OnAPlatform.

End StreamableHTTPClientPoolFacts.

(* ================================================================== *)
(** ** The notification handlers *)

Module SSEEventHandlerFacts.
Import SSEEventHandler.

Section Dispatch.
Context {Handler : Type}.

Lemma dispatch_after_add method (handler : Handler) handlers notification :
  handleNotification Handler (addHandler Handler method handler handlers) notification
  = handleNotification Handler handlers notification
    ++ (if decide (method = Method notification) then [(handler, notification)] else []).
Proof.
  unfold handleNotification, addHandler. rewrite lookup_insert.
  destruct (decide (method = Method notification)) as [->|Hne]; simpl.
  - rewrite map_app. reflexivity.
  - rewrite app_nil_r. reflexivity.
Qed.

(** X24: a notification starts exactly the handlers registered under its
    method, each once per registration and in the order of registration;
    handlers registered under other methods are not started, and a method
    nobody registered for starts nothing. *)
Theorem dispatch_registered (calls : list (string * Handler)) notification :
  handleNotification Handler (register Handler calls ∅) notification
  = map (fun call => (snd call, notification))
        (filter (fun call => fst call = Method notification) calls).
Proof.
  assert (Hgen : forall handlers,
            handleNotification Handler (register Handler calls handlers) notification
            = handleNotification Handler handlers notification
              ++ map (fun call => (snd call, notification))
                     (filter (fun call => fst call = Method notification) calls)).
  { induction calls as [|[method handler] calls IH]; intros handlers.
    - simpl. rewrite app_nil_r. reflexivity.
    - unfold register in *. simpl. rewrite IH, dispatch_after_add.
      destruct (decide (method = Method notification)) as [E|E].
      + rewrite filter_cons_True by exact E. simpl. rewrite <- app_assoc. reflexivity.
      + rewrite filter_cons_False by exact E. rewrite app_nil_r. reflexivity. }
  rewrite Hgen. reflexivity.
Qed.

Lemma run_app (evs1 evs2 : list (event Handler)) s :
  run Handler s (evs1 ++ evs2) =
  match run Handler s evs1 with
  | Some s1 => run Handler s1 evs2
  | None => None
  end.
Proof.
  revert s. induction evs1 as [|e evs1 IH]; intros s; simpl; [reflexivity|].
  destruct (step Handler s e); [apply IH | reflexivity].
Qed.

Lemma wg_counts_loops (evs : list (event Handler)) : forall s s',
  wg Handler s = loops Handler s ->
  run Handler s evs = Some s' ->
  wg Handler s' = loops Handler s'.
Proof.
  induction evs as [|e evs IH]; simpl; intros s s' Hi Hr.
  - injection Hr as <-. exact Hi.
  - destruct (step Handler s e) as [s1|] eqn:Es; [|discriminate].
    apply (IH s1 s'); [|exact Hr].
    destruct e; simpl in Es;
      repeat match type of Es with
             | context [match ?x with _ => _ end] => destruct x eqn:?
             end;
      try discriminate; injection Es as <-; simpl in *; lia.
Qed.

Lemma quiet_without_loops (evs : list (event Handler)) : forall s s',
  loops Handler s = 0%nat ->
  forallb (fun e => negb (is_start Handler e)) evs = true ->
  run Handler s evs = Some s' ->
  loops Handler s' = 0%nat /\ spawned Handler s' = spawned Handler s.
Proof.
  induction evs as [|e evs IH]; simpl; intros s s' Hl Hns Hr.
  - injection Hr as <-. auto.
  - apply andb_true_iff in Hns as [He Hns].
    destruct (step Handler s e) as [s1|] eqn:Es; [|discriminate].
    assert (H1 : loops Handler s1 = 0%nat /\ spawned Handler s1 = spawned Handler s).
    { destruct e; simpl in Es, He; try discriminate;
        repeat match type of Es with
               | context [match ?x with _ => _ end] => destruct x eqn:?
               end;
        try discriminate; injection Es as <-; simpl in *; auto. }
    destruct H1 as [Hl1 Hs1].
    destruct (IH s1 s' Hl1 Hns Hr) as [Hl' Hs']. rewrite Hs', Hs1. auto.
Qed.

(** X25: [Stop] returns only when every dispatch loop has returned: once it
    has, and as long as [Start] is not called again, no notification starts
    a handler any more (a notification cannot even be taken). *)
Theorem stop_quiesces (evs1 evs2 : list (event Handler)) s1 s2 :
  run Handler (NewSSEEventHandler Handler) (evs1 ++ [StopReturn Handler]) = Some s1 ->
  forallb (fun e => negb (is_start Handler e)) evs2 = true ->
  run Handler s1 evs2 = Some s2 ->
  loops Handler s1 = 0%nat /\
  spawned Handler s2 = spawned Handler s1 /\
  forall notification, step Handler s2 (Deliver Handler notification) = None.
Proof.
  rewrite run_app. intros Hr1 Hns Hr2.
  destruct (run Handler (NewSSEEventHandler Handler) evs1) as [s0|] eqn:E0;
    [|discriminate].
  pose proof (wg_counts_loops evs1 (NewSSEEventHandler Handler) s0 eq_refl E0) as Hwg.
  simpl in Hr1.
  destruct (stopping Handler s0); try discriminate.
  destruct (wg Handler s0) eqn:Ew; [|discriminate].
  injection Hr1 as <-.
  assert (Hl : loops Handler s0 = 0%nat) by congruence.
  pose proof (fun Hz => quiet_without_loops evs2 _ s2 Hz Hns Hr2) as Hq.
  simpl in Hq. destruct (Hq Hl) as [Hl2 Hs2].
  split; [exact Hl|]. split; [exact Hs2|].
  intros notification. simpl. rewrite Hl2. reflexivity.
Qed.

End Dispatch.

End SSEEventHandlerFacts.

(* ================================================================== *)
(** ** More on the resilient clients *)

Module ResilientSSEClientRounds.
Import ResilientSSEClient.

Lemma failed_attempts_keep_channel n : forall s s',
  run s (failed_attempts n) = Some s' ->
  reconnectCh s' = reconnectCh s /\ client_set s' = client_set s.
Proof.
  induction n as [|n IH]; intros s s' Hr.
  - injection Hr as <-. auto.
  - unfold failed_attempts in Hr. cbn -[Nat.leb] in Hr.
    destruct (loop s) eqn:El; try discriminate. cbn -[Nat.leb] in Hr.
    destruct (S attempt <=? 5)%nat;
      apply IH in Hr; simpl in Hr; exact Hr.
Qed.

(** X26: a round gives up after five failed attempts: fifteen seconds of
    waiting in all (1 s to 5 s), then the loop is back in its outer [select]
    and has put nothing on [reconnectCh] itself; if no caller raised a
    trigger meanwhile, it makes no further attempt. *)
Theorem round_gives_up_after_five (s : state) :
  loop s = AtConnect 1 ->
  exists s',
    run s (failed_attempts 5) = Some s' /\
    loop s' = AtSelect /\
    waited s' = waited s ++ [1 * Second; 2 * Second; 3 * Second; 4 * Second; 5 * Second] /\
    reconnectCh s' = reconnectCh s /\
    (chan_len (reconnectCh s) = 0%nat -> step s' LoopReceive = None).
Proof.
  intros Hl.
  destruct (ResilientSSEClientFacts.failed_attempts_from 5 s 1 Hl ltac:(lia) ltac:(lia))
    as (s' & Hr & Hw & Hp).
  destruct (failed_attempts_keep_channel 5 s s' Hr) as [Hc _].
  exists s'. split; [exact Hr|]. split; [exact Hp|]. split; [exact Hw|].
  split; [exact Hc|].
  intros Hz. simpl. rewrite Hp, Hc. unfold recv. rewrite Hz. reflexivity.
Qed.

(** X27: a failure signalled while a round is under way is kept: when the
    round then reconnects, the loop takes the pending trigger and starts
    another round at attempt 1, although the connection is up. *)
Theorem signal_during_round_starts_another (s : state) (attempt : nat) :
  loop s = AtConnect attempt ->
  client_set s = true ->
  reconnectCh s = make_chan 1 ->
  exists s',
    run s [SignalFailure; ConnectSucceeds; LoopReceive] = Some s' /\
    loop s' = AtConnect 1 /\
    started s' = S (started s) /\
    reconnectCh s' = make_chan 1.
Proof.
  intros Hl Hc Hch. simpl. rewrite Hc, Hl, Hch. simpl.
  eexists. split; [reflexivity|]. simpl. auto.
Qed.

Lemma waits_step s e s' :
  attempt_in_range (loop s) /\ Forall wait_in_range (waited s) ->
  step s e = Some s' ->
  attempt_in_range (loop s') /\ Forall wait_in_range (waited s').
Proof.
  intros [Ha Hw] Hstep.
  destruct e; cbn -[Nat.leb] in Hstep;
    repeat match type of Hstep with
           | context [match ?x with _ => _ end] => destruct x eqn:?
           | context [if ?x then _ else _] => destruct x eqn:?
           end;
    try discriminate; injection Hstep as <-; simpl in *; auto;
    try (split; [lia | assumption]).
  - split; [apply Nat.leb_le in Heqb; lia|].
    apply Forall_app. split; [assumption|]. constructor; [|constructor].
    unfold wait_in_range. rewrite backoff_small by lia. unfold Second. lia.
  - split; [exact I|].
    apply Forall_app. split; [assumption|]. constructor; [|constructor].
    unfold wait_in_range. rewrite backoff_small by lia. unfold Second. lia.
Qed.

(** X28: every backoff delay the loop has ever sat out is between one and
    five seconds, whatever the callers and the connection attempts did. *)
Theorem waits_bounded (s0 : state) (evs : list event) (s : state) :
  s0 = NewResilientSSEClient \/ s0 = connected ->
  run s0 evs = Some s ->
  Forall (fun d => 1 * Second <= d <= 5 * Second) (waited s).
Proof.
  intros H0 Hr.
  assert (Hgen : forall evs s s',
            attempt_in_range (loop s) /\ Forall wait_in_range (waited s) ->
            run s evs = Some s' ->
            attempt_in_range (loop s') /\ Forall wait_in_range (waited s')).
  { clear. induction evs as [|e evs IH]; simpl; intros s s' Hi Hr.
    - injection Hr as <-. exact Hi.
    - destruct (step s e) as [s1|] eqn:Es; [|discriminate].
      apply (IH s1 s'); [|exact Hr]. eapply waits_step; eassumption. }
  apply (Hgen evs s0 s); [|exact Hr].
  destruct H0 as [-> | ->]; simpl; auto.
Qed.

Lemma round_gives_up_after_five_witness :
  exists s',
    run round_started (failed_attempts 5) = Some s' /\
    loop s' = AtSelect /\
    waited s' = waited round_started
                ++ [1 * Second; 2 * Second; 3 * Second; 4 * Second; 5 * Second] /\
    reconnectCh s' = reconnectCh round_started /\
    (chan_len (reconnectCh round_started) = 0%nat -> step s' LoopReceive = None).
Proof. apply (round_gives_up_after_five round_started). reflexivity. Defined.

Lemma signal_during_round_starts_another_witness :
  exists s',
    run round_started [SignalFailure; ConnectSucceeds; LoopReceive] = Some s' /\
    loop s' = AtConnect 1 /\
    started s' = S (started round_started) /\
    reconnectCh s' = make_chan 1.
Proof.
  apply (signal_during_round_starts_another round_started 1); reflexivity.
Defined.

Lemma waits_bounded_witness :
  Forall (fun d => 1 * Second <= d <= 5 * Second)
    [1 * Second; 2 * Second].
Proof.
  apply (waits_bounded connected
           ([SignalFailure; LoopReceive] ++ failed_attempts 2)
           {| reconnectCh := make_chan 1; ctx_done := false; client_set := true;
              loop := AtConnect 3; closing := CloseNotCalled;
              waited := [1 * Second; 2 * Second]; started := 1; finished := 0 |});
    [right; reflexivity | reflexivity].
Defined.

End ResilientSSEClientRounds.

Module ManagedStdioClientRestarts.
Import ManagedStdioClient.

(** X29: a restart that fails is retried without any caller asking: the
    monitor re-arms [restartChan] itself after its delay, takes the trigger
    and calls [start()] again. *)
Theorem failed_restart_retries (evs : list event) (s : state) :
  run NewManagedStdioClient evs = Some s ->
  monitor s = AtRestart ->
  exists s',
    run s [StartFails; RetryRearm; MonitorReceive] = Some s' /\
    monitor s' = AtRestart /\
    chan_len (restartChan s') = 0%nat.
Proof.
  intros Hr Hm.
  destruct (ManagedStdioClientFacts.monitor_invariant_run evs _ _
              ManagedStdioClientFacts.monitor_invariant_init Hr)
    as (Hcap & Hlen & _ & _).
  destruct (chan_len (restartChan s)) as [|[|n]] eqn:El; [| |lia];
    simpl; rewrite Hm; simpl; unfold try_send, recv; rewrite Hcap, El; simpl;
    rewrite ?El; simpl;
    eexists; (split; [reflexivity|]); simpl; auto.
Qed.

Lemma failed_restart_retries_witness :
  exists s',
    run {| restartChan := make_chan 1; ctx_done := false; wg := 1;
           monitor := AtRestart; closing := CloseNotCalled |}
      [StartFails; RetryRearm; MonitorReceive] = Some s' /\
    monitor s' = AtRestart /\
    chan_len (restartChan s') = 0%nat.
Proof.
  apply (failed_restart_retries [SignalFailure; MonitorReceive]); reflexivity.
Defined.

Lemma close_waits_for_monitor_witness :
  monitor {| restartChan := make_chan 1; ctx_done := true; wg := 0;
             monitor := MonitorReturned; closing := CloseReturned |}
  = MonitorReturned.
Proof.
  apply (ManagedStdioClientFacts.close_waits_for_monitor
           [CloseCancel; MonitorCtxDone; CloseReturn]); reflexivity.
Defined.

End ManagedStdioClientRestarts.

(* ================================================================== *)
(** ** The further theorems at work *)

Lemma other_path_not_found_witness :
  let r := @mkRequest demo "POST" "/elsewhere" ∅ ping_request tt in
  let c := mkConsole "" "" in
  reply_summary (fst (ServeHTTP demo_server new_ResponseWriter r c))
  = (StatusNotFound, text_plain) /\
  response_body (fst (ServeHTTP demo_server new_ResponseWriter r c))
  = "404 page not found" +:+ newline /\
  snd (ServeHTTP demo_server new_ResponseWriter r c) = c.
Proof. apply (@other_path_not_found demo). vm_compute. discriminate. Defined.

Lemma other_methods_405_witness :
  let r := demo_request "DELETE" [("Accept", both_types);
                                  ("Content-Type", "application/json")] ping_request in
  let c := mkConsole "" "" in
  reply_summary (fst (ServeHTTP demo_server new_ResponseWriter r c))
  = (StatusMethodNotAllowed, text_plain) /\
  response_body (fst (ServeHTTP demo_server new_ResponseWriter r c))
  = "Method Not Allowed" +:+ newline /\
  snd (ServeHTTP demo_server new_ResponseWriter r c) = c.
Proof.
  apply (@other_methods_405 demo); try (vm_compute; reflexivity).
  vm_compute. discriminate.
Defined.

Lemma content_type_exact_415_witness :
  let r := demo_request "POST" [("Accept", both_types);
                                ("Content-Type", "application/json; charset=utf-8")]
             ping_request in
  let c := mkConsole "" "" in
  reply_summary (fst (ServeHTTP demo_server new_ResponseWriter r c))
  = (StatusUnsupportedMediaType, text_plain) /\
  response_body (fst (ServeHTTP demo_server new_ResponseWriter r c))
  = "Unsupported Media Type: Content-Type must be application/json" +:+ newline /\
  snd (ServeHTTP demo_server new_ResponseWriter r c) = c.
Proof.
  apply (@content_type_exact_415 demo); try (vm_compute; reflexivity).
  vm_compute. discriminate.
Defined.

Lemma encode_failure_reply_witness :
  let s := @NewStatelessHTTPServer demo 1%nat [] in
  let r := demo_request "POST" [("Accept", both_types);
                                ("Content-Type", "application/json")] ping_request in
  let c := mkConsole "" "" in
  reply_summary (fst (ServeHTTP s new_ResponseWriter r c))
  = (StatusOK, "application/json") /\
  response_body (fst (ServeHTTP s new_ResponseWriter r c))
  = "Internal Server Error" +:+ newline /\
  snd (ServeHTTP s new_ResponseWriter r c)
  = @Logger_Printf demo (errLogger s)
      ("Error writing response: " +:+ "json: unsupported value: NaN") c.
Proof.
  apply (@encode_failure_reply demo _ _ _ ping_request
           (JSONRPCResponse JSONRPC_VERSION (IdInt 1) "NaN"));
    vm_compute; reflexivity.
Defined.

Lemma discard_logger_silent_witness :
  let s := @NewStatelessHTTPServer demo 1%nat [] in
  let logger := log_New io_Discard "" 0 in
  let r := demo_request "POST" [("Accept", both_types);
                                ("Content-Type", "application/json")] ping_request in
  let c := mkConsole "" "" in
  snd (ServeHTTP (SetErrorLogger logger s) new_ResponseWriter r c) = c /\
  fst (ServeHTTP (SetErrorLogger logger s) new_ResponseWriter r c)
  = fst (ServeHTTP s new_ResponseWriter r c).
Proof. apply (@discard_logger_silent demo). reflexivity. Defined.

Lemma accept_check_is_substring_test_witness :
  let r := demo_request "POST" [("Accept", "text/html");
                                ("Content-Type", "application/json")] ping_request in
  response_status (fst (ServeHTTP demo_server new_ResponseWriter r (mkConsole "" "")))
  = StatusNotAcceptable
  <->
  ~ exists pre post,
      Header_Get (Header r) "Accept" = pre +:+ "application/json" +:+ post \/
      Header_Get (Header r) "Accept" = pre +:+ "text/event-stream" +:+ post.
Proof. apply (@accept_check_is_substring_test demo). reflexivity. Defined.

(** A zero quality value does not keep a media type from passing. *)
Example accept_q_zero_served :
  response_status
    (serve demo_server
       (demo_request "POST" [("Accept", "application/json;q=0");
                             ("Content-Type", "application/json")] ping_request))
  = StatusOK.
Proof. vm_compute. reflexivity. Qed.

Lemma body_read_only_for_post_witness :
  let r := demo_request "GET" [("Accept", both_types);
                               ("Content-Type", "application/json")] ping_request in
  ServeHTTP demo_server new_ResponseWriter (with_body r "{not json") (mkConsole "" "")
  = ServeHTTP demo_server new_ResponseWriter r (mkConsole "" "").
Proof.
  apply (@body_read_only_for_post demo). right. right. right.
  vm_compute. discriminate.
Defined.

Lemma last_base_path_wins_witness :
  basePath (@NewStatelessHTTPServer demo 0%nat
              ([WithHTTPBasePath "/a"]
               ++ WithHTTPBasePath "/b" :: [WithStatelessHTTPContextFunc (fun ctx => ctx)]))
  = "/b".
Proof.
  apply (@last_base_path_wins demo). constructor; [|constructor].
  intros s. reflexivity.
Defined.

(** The guide's three examples of [SelectTransport]. *)
Example demonstrateTransportSelection :
  SelectTransport (mkTransportRequirements false false false "high" "low") = "inprocess" /\
  SelectTransport (mkTransportRequirements true true true "medium" "medium") = "sse" /\
  SelectTransport (mkTransportRequirements false false false "medium" "low") = "stdio".
Proof. repeat split. Qed.

Module StreamableHTTPClientPoolExamples.
Import StreamableHTTPClientPool.

Lemma gets_in_order_witness :
  fst (Get (Nat.iter 3 (fun p => snd (Get p))
              {| clients := [0; 1]%nat; maxSize := 2; made := 2; closed := [] |}))
  = 3%nat.
Proof.
  apply (@StreamableHTTPClientPoolFacts.gets_in_order sample_platform 2).
  reflexivity.
Defined.

Lemma CallTool_alone_witness :
  CallTool {| clients := []; maxSize := 0; made := 4; closed := [] |}
  = (4%nat, {| clients := []; maxSize := 0; made := 5; closed := [4%nat] |}).
Proof.
  apply (StreamableHTTPClientPoolFacts.CallTool_alone
           {| clients := []; maxSize := 0; made := 4; closed := [] |}).
  simpl. lia.
Defined.

Lemma pool_accounting_witness :
  let s := {| the_pool := {| clients := [0; 1]%nat; maxSize := 2; made := 3;
                             closed := [2%nat] |};
              held := [] |} in
  (length (clients (the_pool s)) <= maxSize (the_pool s))%nat /\
  NoDup (clients (the_pool s) ++ held s ++ closed (the_pool s)) /\
  (forall c, c ∈ clients (the_pool s) ++ held s ++ closed (the_pool s)
             <-> (c < made (the_pool s))%nat).
Proof.
  apply (@StreamableHTTPClientPoolFacts.pool_accounting sample_platform 2
           {| clients := [0; 1]%nat; maxSize := 2; made := 2; closed := [] |}
           [Acquire; Acquire; Acquire; Release 0; Release 1; Release 2]);
    reflexivity.
Defined.

Lemma acquire_is_safe_witness :
  exists c, [2; 1; 0]%nat = c :: [1; 0]%nat /\ (c ∉ [1; 0]%nat) /\ (c ∉ @nil nat).
Proof.
  apply (@StreamableHTTPClientPoolFacts.acquire_is_safe sample_platform 2
           {| clients := [0; 1]%nat; maxSize := 2; made := 2; closed := [] |}
           [Acquire; Acquire]
           {| the_pool := {| clients := []; maxSize := 2; made := 2; closed := [] |};
              held := [1; 0]%nat |}
           {| the_pool := {| clients := []; maxSize := 2; made := 3; closed := [] |};
              held := [2; 1; 0]%nat |});
    reflexivity.
Defined.

End StreamableHTTPClientPoolExamples.

Module SSEEventHandlerExamples.
Import SSEEventHandler.

(** Two progress handlers and one message handler: a progress notification
    starts the two, in the order they were registered. *)
Example progress_dispatch :
  handleNotification nat
    (OnProgress nat 2%nat (OnMessage nat 1%nat (OnProgress nat 0%nat ∅)))
    (mkNotification "notifications/progress" "{}")
  = [(0%nat, mkNotification "notifications/progress" "{}");
     (2%nat, mkNotification "notifications/progress" "{}")].
Proof. vm_compute. reflexivity. Qed.

Lemma stop_quiesces_witness :
  let s1 := {| handlers_of := ∅; ctx_done := true; wg := 0; loops := 0;
               stopping := CloseReturned; spawned := @nil (nat * Notification) |} in
  loops nat s1 = 0%nat /\
  spawned nat s1 = spawned nat s1 /\
  forall notification, step nat s1 (Deliver nat notification) = None.
Proof.
  apply (@SSEEventHandlerFacts.stop_quiesces nat
           [StartSubscribes nat; Deliver nat (mkNotification "notifications/message" "{}");
            StopCancel nat; LoopCtxDone nat]
           [StartFails nat]);
    reflexivity.
Defined.

End SSEEventHandlerExamples.


(* ================================================================== *)
(** ** Where the wording of C4 and C5 goes beyond the code *)

Example Decoder_Decode_samples :
  Decoder_Decode "" = None /\
  Decoder_Decode "{not json" = None /\
  Decoder_Decode "[1,]" = None /\
  Decoder_Decode " [1, 2.5e-3, true, null, {}, []] x"
  = Some "[1, 2.5e-3, true, null, {}, []]" /\
  Decoder_Decode "{} {}" = Some "{}" /\
  json_Valid "{} {}" = false /\
  json_Valid ping_request = true.
Proof. vm_compute. repeat split. Qed.


